(** * cmd/telegraf/telegraf-win.go: startup controller of the Windows service

    A shallow embedding of [main], [start], [stop] and [usageExit] and of the
    flag variables they read, followed by the properties of the startup
    sequence.

    Conventions of the embedding.
    - A Go [string] is a [string] of bytes; an [error] is its message; a nil
      error is [None].
    - A [[]string] is a [list string]; the nil slice is [[]].
    - Calls into other packages ([winsvc], [config], [agent], [os]) are fields
      of an environment record: state transformers on a world that holds the
      heap of configuration objects and the collaborators' own state.
    - Every call that leaves the function is recorded as an [event]; a
      computation yields its events in program order.
    - [log.Fatal*] and [os.Exit] halt the process; [return] inside the loop of
      [start] leaves the function.  All three are halts of the monad.
    - The command line is the list of its flag settings; [flag.Parse] applies
      them to the flag variables.  A command line that [flag.Parse] rejects
      never leaves [flag.Parse] and is not a value of the type.
    - The loop of [start] takes a bound on its iterations; the statements
      hold for every bound of two or more, and [OutOfFuel] marks a run that
      the bound cut short.
    - [winsvc.RunAsService] hands [start] and [stop] to the service manager,
      which calls them on threads of its own: in [main] the call is one
      event, and [start] is studied by itself. *)

From Stdlib Require Import String Ascii List Bool Arith ZArith Lia.
From Stdlib Require Import DecimalString Permutation.
Import ListNotations.
Open Scope list_scope.
Open Scope string_scope.

Set Implicit Arguments.

(** ** Package [strings] *)

Module strings.

(** UTF-8 encodings of the runes for which [unicode.IsSpace] holds:
    U+0009..U+000D, U+0020, U+0085, U+00A0, U+1680, U+2000..U+200A,
    U+2028, U+2029, U+202F, U+205F, U+3000. *)
Definition spaceRunes : list (list nat) :=
  [ [9]; [10]; [11]; [12]; [13]; [32];
    [194; 133]; [194; 160];
    [225; 154; 128];
    [226; 128; 128]; [226; 128; 129]; [226; 128; 130]; [226; 128; 131];
    [226; 128; 132]; [226; 128; 133]; [226; 128; 134]; [226; 128; 135];
    [226; 128; 136]; [226; 128; 137]; [226; 128; 138];
    [226; 128; 168]; [226; 128; 169]; [226; 128; 175];
    [226; 129; 159];
    [227; 128; 128] ].

Definition bytes (s : string) : list nat := map nat_of_ascii (list_ascii_of_string s).
Definition of_bytes (l : list nat) : string := string_of_list_ascii (map ascii_of_nat l).

Fixpoint isPrefix (p l : list nat) : bool :=
  match p, l with
  | [], _ => true
  | x :: p', y :: l' => Nat.eqb x y && isPrefix p' l'
  | _ :: _, [] => false
  end.

(** Width in bytes of the white-space rune encoded at the head of [l];
    [0] when the first rune is not white space (or not valid UTF-8). *)
Definition spaceWidth (l : list nat) : nat :=
  match find (fun p => isPrefix p l) spaceRunes with
  | Some p => length p
  | None => 0
  end.

(** The same from the end of the string, on the reversed bytes. *)
Definition spaceWidthLast (r : list nat) : nat :=
  match find (fun p => isPrefix (rev p) r) spaceRunes with
  | Some p => length p
  | None => 0
  end.

Fixpoint dropWhile (width : list nat -> nat) (fuel : nat) (l : list nat) : list nat :=
  match fuel with
  | 0 => l
  | S fuel' =>
      match width l with
      | 0 => l
      | w => dropWhile width fuel' (skipn w l)
      end
  end.

Definition TrimLeftSpace (l : list nat) : list nat := dropWhile spaceWidth (length l) l.
Definition TrimRightSpace (l : list nat) : list nat :=
  rev (dropWhile spaceWidthLast (length l) (rev l)).

(** [strings.TrimSpace]: leading and trailing white space removed. *)
Definition TrimSpace (s : string) : string :=
  of_bytes (TrimRightSpace (TrimLeftSpace (bytes s))).

(** [strings.Split(s, sep)] for a separator of one byte: the substrings
    between the separators, one more than there are separators. *)
Fixpoint Split (s : string) (sep : ascii) : list string :=
  match s with
  | EmptyString => [EmptyString]
  | String c r =>
      if Ascii.eqb c sep then EmptyString :: Split r sep
      else match Split r sep with
           | h :: t => String c h :: t
           | [] => [String c EmptyString]
           end
  end.

(** [strings.Join(a, sep)]. *)
Definition Join (a : list string) (sep : string) : string := String.concat sep a.

End strings.

Definition nl : string := String (ascii_of_nat 10) EmptyString.
Definition colon : ascii := ascii_of_nat 58.

(** ** The flag variables (lines 20-51) *)

(** The boolean flags, named as on the command line: [flag_service_remove]
    is [-service-remove]. *)
Inductive boolFlag :=
| flag_debug | flag_quiet | flag_test | flag_version | flag_sample_config
| flag_service_install | flag_service_remove | flag_service_start | flag_service_stop.

(** The string flags. *)
Inductive stringFlag :=
| flag_config | flag_config_directory | flag_pidfile | flag_input_filter
| flag_output_filter | flag_usage | flag_service_name | flag_service_desc
| flag_filter | flag_outputfilter | flag_configdirectory.

Inductive flagId := BoolFlag (b : boolFlag) | StringFlag (s : stringFlag).

Definition flagId_eq_dec (x y : flagId) : {x = y} + {x <> y}.
Proof. repeat decide equality. Defined.

(** One flag setting of the command line, already split into the flag and
    its value of the flag's type ([-test] alone is [SetBool flag_test true]). *)
Inductive arg :=
| SetBool (b : boolFlag) (v : bool)
| SetString (s : stringFlag) (v : string).

Definition argFlag (a : arg) : flagId :=
  match a with
  | SetBool b _ => BoolFlag b
  | SetString s _ => StringFlag s
  end.

(** The values behind the pointers [fDebug], [fQuiet], ... *)
Record Flags := mkFlags {
  fDebug : bool;
  fQuiet : bool;
  fTest : bool;
  fConfig : string;
  fConfigDirectory : string;
  fVersion : bool;
  fSampleConfig : bool;
  fPidfile : string;
  fInputFilters : string;
  fOutputFilters : string;
  fUsage : string;
  fServiceName : string;
  fServiceDesc : string;
  fServiceInstall : bool;
  fServiceUninstall : bool;
  fServiceStart : bool;
  fServiceStop : bool;
  fInputFiltersLegacy : string;
  fOutputFiltersLegacy : string;
  fConfigDirectoryLegacy : string
}.

(** The defaults given to [flag.Bool] and [flag.String]. *)
Definition defaults : Flags :=
  {| fDebug := false; fQuiet := false; fTest := false;
     fConfig := ""; fConfigDirectory := "";
     fVersion := false; fSampleConfig := false;
     fPidfile := ""; fInputFilters := ""; fOutputFilters := ""; fUsage := "";
     fServiceName := "telegraf-winsvc";
     fServiceDesc := "Telegraf windows service";
     fServiceInstall := false; fServiceUninstall := false;
     fServiceStart := false; fServiceStop := false;
     fInputFiltersLegacy := ""; fOutputFiltersLegacy := "";
     fConfigDirectoryLegacy := "" |}.

Definition setBool (b : boolFlag) (v : bool) (f : Flags) : Flags :=
  let (d, q, t, c, cd, ver, sc, p, i, o, u, sn, sd, si, su, ss, sp, il, ol, cl) := f in
  match b with
  | flag_debug => mkFlags v q t c cd ver sc p i o u sn sd si su ss sp il ol cl
  | flag_quiet => mkFlags d v t c cd ver sc p i o u sn sd si su ss sp il ol cl
  | flag_test => mkFlags d q v c cd ver sc p i o u sn sd si su ss sp il ol cl
  | flag_version => mkFlags d q t c cd v sc p i o u sn sd si su ss sp il ol cl
  | flag_sample_config => mkFlags d q t c cd ver v p i o u sn sd si su ss sp il ol cl
  | flag_service_install => mkFlags d q t c cd ver sc p i o u sn sd v su ss sp il ol cl
  | flag_service_remove => mkFlags d q t c cd ver sc p i o u sn sd si v ss sp il ol cl
  | flag_service_start => mkFlags d q t c cd ver sc p i o u sn sd si su v sp il ol cl
  | flag_service_stop => mkFlags d q t c cd ver sc p i o u sn sd si su ss v il ol cl
  end.

Definition setString (s : stringFlag) (v : string) (f : Flags) : Flags :=
  let (d, q, t, c, cd, ver, sc, p, i, o, u, sn, sd, si, su, ss, sp, il, ol, cl) := f in
  match s with
  | flag_config => mkFlags d q t v cd ver sc p i o u sn sd si su ss sp il ol cl
  | flag_config_directory => mkFlags d q t c v ver sc p i o u sn sd si su ss sp il ol cl
  | flag_pidfile => mkFlags d q t c cd ver sc v i o u sn sd si su ss sp il ol cl
  | flag_input_filter => mkFlags d q t c cd ver sc p v o u sn sd si su ss sp il ol cl
  | flag_output_filter => mkFlags d q t c cd ver sc p i v u sn sd si su ss sp il ol cl
  | flag_usage => mkFlags d q t c cd ver sc p i o v sn sd si su ss sp il ol cl
  | flag_service_name => mkFlags d q t c cd ver sc p i o u v sd si su ss sp il ol cl
  | flag_service_desc => mkFlags d q t c cd ver sc p i o u sn v si su ss sp il ol cl
  | flag_filter => mkFlags d q t c cd ver sc p i o u sn sd si su ss sp v ol cl
  | flag_outputfilter => mkFlags d q t c cd ver sc p i o u sn sd si su ss sp il v cl
  | flag_configdirectory => mkFlags d q t c cd ver sc p i o u sn sd si su ss sp il ol v
  end.

Definition setArg (f : Flags) (a : arg) : Flags :=
  match a with
  | SetBool b v => setBool b v f
  | SetString s v => setString s v f
  end.

(** [flag.Parse]: the settings are applied left to right onto the
    defaults, so the last setting of a flag stands. *)
Definition parse (args : list arg) : Flags := fold_left setArg args defaults.

(** [flag.NFlag]: the number of flags that have been set. *)
Definition NFlag (args : list arg) : nat :=
  length (nodup flagId_eq_dec (map argFlag args)).

(** The usage text (lines 58-93). *)
Definition usage : string :=
"Telegraf, The plugin-driven server agent for collecting and reporting metrics.

Usage:

  telegraf <flags>

The flags are:

  -config <file>     configuration file to load
  -test              gather metrics once, print them to stdout, and exit
  -sample-config     print out full sample configuration to stdout
  -config-directory  directory containing additional *.conf files
  -input-filter      filter the input plugins to enable, separator is :
  -output-filter     filter the output plugins to enable, separator is :
  -usage             print usage for a plugin, ie, 'telegraf -usage mysql'
  -debug             print metrics as they're generated to stdout
  -quiet             run in quiet mode
  -version           print the version to stdout

Examples:

  # generate a telegraf config file:
  telegraf -sample-config > telegraf.conf

  # generate config with only cpu input & influxdb output plugins defined
  telegraf -sample-config -input-filter cpu -output-filter influxdb

  # run a single telegraf collection, outputing metrics to stdout
  telegraf -config telegraf.conf -test

  # run telegraf with all plugins defined in config file
  telegraf -config telegraf.conf

  # run telegraf, enabling the cpu & memory input, and influxdb output plugins
  telegraf -config telegraf.conf -input-filter cpu:mem -output-filter influxdb
".

(** ** The collaborators' data *)

Definition error := string.

(** Address of a [*config.Config] on the heap. *)
Definition loc := nat.

(** Package [config]: the fields the controller reads or writes; everything
    else a configuration holds is kept whole in one field of type [O]. *)
Module config.
Record AgentConfig (O : Type) := mkAgentConfig {
  Debug : bool;
  Quiet : bool;
  agentOther : O
}.

Record Config (O : Type) := mkConfig {
  OutputFilters : list string;
  InputFilters : list string;
  Outputs : list O;
  Inputs : list O;
  Agent : AgentConfig O;
  configOther : O
}.
End config.

(** Package [agent]: an agent points to its configuration. *)
Module agent.
Record Agent (O : Type) := mkAgent {
  Config : loc;
  agentState : O
}.
End agent.

(** What the controller does to the outside, in program order. *)
Inductive event :=
| EvParse                                             (* flag.Parse() *)
| EvStdout (s : string)                               (* fmt.Println, fmt.Printf *)
| EvLog (s : string)                                  (* log.Println, log.Printf *)
| EvPrintDefaults                                     (* flag.PrintDefaults() *)
| EvInstallService (path name desc : string)
| EvRemoveService (name : string)
| EvStartService (name : string)
| EvStopService (name : string)
| EvRunAsService (name : string)
| EvPrintSampleConfig (inputFilters outputFilters : list string)
| EvPrintInputConfig (name : string)
| EvPrintOutputConfig (name : string)
| EvNewConfig
| EvLoadConfig (c : loc) (path : string)
| EvLoadDirectory (c : loc) (path : string)
| EvNewAgent (c : loc)
| EvTest
| EvConnect
| EvCreate (path : string)                            (* os.Create *)
| EvWrite (path : string) (data : string)             (* fmt.Fprintf(f, ...) *)
| EvClose (path : string).                            (* f.Close() *)

(** How a computation stops short of its end. *)
Inductive halt :=
| Returned              (* [return] out of the enclosing function *)
| Exit (code : Z)       (* os.Exit *)
| Fatal (msg : string)  (* log.Fatal, log.Fatalf, log.Fatalln: message, then exit status 1 *)
| Blocked               (* a channel operation that can never proceed *)
| OutOfFuel.            (* the model's loop bound was reached *)

(** A buffered [chan bool]. *)
Record chan := mkChan { buf : list bool; capacity : nat }.

Definition make (n : nat) : chan := mkChan [] n.

Definition send (ch : chan) (v : bool) : option chan :=
  if Nat.ltb (length (buf ch)) (capacity ch)
  then Some (mkChan (buf ch ++ [v]) (capacity ch))
  else None.

Definition recv (ch : chan) : option (bool * chan) :=
  match buf ch with
  | [] => None
  | v :: rest => Some (v, mkChan rest (capacity ch))
  end.

Definition nonEmpty (s : string) : bool := negb (String.eqb s "").

(** [%d] of an [int]. *)
Definition decimal (n : Z) : string := NilZero.string_of_int (Z.to_int n).

Section Monad.

Variables W O : Type.

(** The heap of configurations and the collaborators' own state. *)
Record World := mkWorld {
  heap : loc -> config.Config O;
  ext : W
}.

(** The packages the controller calls, the link-time [Version] and the
    [appPath] that [init] stored. *)
Record Env := mkEnv {
  Version : string;
  appPath : string;
  os_Getpid : World -> Z;
  os_Create : string -> World -> option error * World;
  winsvc_InstallService : string -> string -> string -> World -> option error * World;
  winsvc_RemoveService : string -> World -> option error * World;
  winsvc_StartService : string -> World -> option error * World;
  winsvc_StopService : string -> World -> option error * World;
  winsvc_InServiceMode : World -> bool;
  winsvc_RunAsService : string -> World -> option error * World;
  config_PrintSampleConfig : list string -> list string -> World -> World;
  config_PrintInputConfig : string -> World -> option error * World;
  config_PrintOutputConfig : string -> World -> option error * World;
  config_NewConfig : World -> loc * World;
  config_LoadConfig : loc -> string -> World -> option error * World;
  config_LoadDirectory : loc -> string -> World -> option error * World;
  config_OutputNames : loc -> World -> list string;
  config_InputNames : loc -> World -> list string;
  config_ListTags : loc -> World -> string;
  agent_NewAgent : loc -> World -> (error + agent.Agent O) * World;
  agent_Test : agent.Agent O -> World -> option error * World;
  agent_Connect : agent.Agent O -> World -> option error * World
}.

(** *** The monad: world passing, an event log, halts *)

Record Run (A : Type) := mkRun {
  result : A + halt;
  world : World;
  trace : list event
}.

Definition M (A : Type) : Type := World -> Run A.

Definition ret {A} (a : A) : M A := fun w => mkRun (inl a) w [].

Definition stop_with {A} (h : halt) : M A := fun w => mkRun (inr h) w [].

Definition bind {A B} (m : M A) (k : A -> M B) : M B :=
  fun w =>
    match m w with
    | mkRun (inl a) w1 t1 =>
        match k a w1 with
        | mkRun r w2 t2 => mkRun r w2 (t1 ++ t2)
        end
    | mkRun (inr h) w1 t1 => mkRun (inr h) w1 t1
    end.

Definition emit (e : event) : M unit := fun w => mkRun (inl tt) w [e].

(** A call whose result and effect the environment decides. *)
Definition call {A} (e : event) (f : World -> A * World) : M A :=
  fun w => let (a, w') := f w in mkRun (inl a) w' [e].

Definition get : M World := fun w => mkRun (inl w) w [].

Definition modify (f : World -> World) : M unit := fun w => mkRun (inl tt) (f w) [].

(** [if b { body }]. *)
Definition when (b : bool) (body : M unit) : M unit := if b then body else ret tt.

(** A function call: [return] inside the body ends the call, not the caller. *)
Definition function (body : M unit) : M unit :=
  fun w =>
    match body w with
    | mkRun (inr Returned) w1 t1 => mkRun (inl tt) w1 t1
    | r => r
    end.

End Monad.

Arguments ret {W O A} a.
Arguments stop_with {W O A} h.
Arguments emit {W O} e.
Arguments get {W O}.

Notation "x <- m ;; k" := (bind m (fun x => k))
  (at level 61, m at next level, right associativity).
Notation "m ;; k" := (bind m (fun _ => k))
  (at level 61, right associativity).

(** ** The program *)

Section Program.

Variables W O : Type.
Variable E : Env W O.

Local Abbreviation M := (M W O).
Local Abbreviation World := (World W O).

Definition Println (s : string) : M unit := emit (EvStdout (s ++ nl)).
Definition Printf (s : string) : M unit := emit (EvStdout s).
Definition log_Printf (s : string) : M unit := emit (EvLog s).
Definition log_Fatal {A} (msg : string) : M A := stop_with (Fatal msg).
Definition os_Exit {A} (code : Z) : M A := stop_with (Exit code).
Definition return_ {A} : M A := stop_with Returned.

(** [if err != nil { log.Fatal(err) }]. *)
Definition fatalOn (err : option error) : M unit :=
  match err with
  | Some e => log_Fatal e
  | None => ret tt
  end.

(** Writes through a [*config.Config]. *)
Definition store (c : loc) (v : config.Config O) (w : World) : World :=
  mkWorld (fun l => if Nat.eqb l c then v else heap w l) (ext w).

Definition assign (c : loc) (f : config.Config O -> config.Config O) : M unit :=
  modify (fun w => store c (f (heap w c)) w).

Definition set_OutputFilters (v : list string) (cfg : config.Config O) :=
  config.mkConfig v (config.InputFilters cfg) (config.Outputs cfg)
    (config.Inputs cfg) (config.Agent cfg) (config.configOther cfg).

Definition set_InputFilters (v : list string) (cfg : config.Config O) :=
  config.mkConfig (config.OutputFilters cfg) v (config.Outputs cfg)
    (config.Inputs cfg) (config.Agent cfg) (config.configOther cfg).

Definition set_Agent (a : config.AgentConfig O) (cfg : config.Config O) :=
  config.mkConfig (config.OutputFilters cfg) (config.InputFilters cfg)
    (config.Outputs cfg) (config.Inputs cfg) a (config.configOther cfg).

Definition set_Debug (v : bool) (cfg : config.Config O) :=
  set_Agent (config.mkAgentConfig v (config.Quiet (config.Agent cfg))
               (config.agentOther (config.Agent cfg))) cfg.

Definition set_Quiet (v : bool) (cfg : config.Config O) :=
  set_Agent (config.mkAgentConfig (config.Debug (config.Agent cfg)) v
               (config.agentOther (config.Agent cfg))) cfg.

(** Lines 303-306. *)
Definition usageExit : M unit :=
  Println usage ;;
  os_Exit 0.

(** Lines 298-301. *)
Definition stop : M unit :=
  log_Printf "Hard Shutdown".

(** [strings.Split(":"+strings.TrimSpace(s)+":", ":")]. *)
Definition splitFilter (s : string) : list string :=
  strings.Split (":" ++ strings.TrimSpace s ++ ":") colon.

(** Lines 174-182 and 184-192: the legacy flag is looked at first, the
    current flag second, and the later assignment stands. *)
Definition resolveFilters (legacy current : string) : list string :=
  let filters := [] in
  let filters := if nonEmpty legacy then splitFilter legacy else filters in
  let filters := if nonEmpty current then splitFilter current else filters in
  filters.

Definition inputFilters (f : Flags) : list string :=
  resolveFilters (fInputFiltersLegacy f) (fInputFilters f).

Definition outputFilters (f : Flags) : list string :=
  resolveFilters (fOutputFiltersLegacy f) (fOutputFilters f).

(** Lines 166-172, without the channel send.  The assignment
    [flag.Usage = usageExit] only matters inside [flag.Parse]: on a command
    line that it rejects, and on [-h], [flag.Parse] itself calls
    [flag.Usage], which prints the usage text and exits with status 0.  Such
    a command line is not a [list arg]; [EvParse] is the parse of one that
    [flag.Parse] accepts, and what follows is what the code does once
    [flag.Parse] has returned. *)
Definition preamble (args : list arg) : M unit :=
  emit EvParse ;;
  when (Nat.eqb (NFlag args) 0) usageExit.

(** Lines 205-212. *)
Definition printUsage (name : string) : M unit :=
  err <- call (EvPrintInputConfig name) (config_PrintInputConfig E name) ;;
  match err with
  | Some e =>
      err2 <- call (EvPrintOutputConfig name) (config_PrintOutputConfig E name) ;;
      match err2 with
      | Some e2 => log_Fatal (e ++ " and " ++ e2)
      | None => ret tt
      end
  | None => ret tt
  end ;;
  return_.

(** Lines 194-212. *)
Definition informational (f : Flags) : M unit :=
  when (fVersion f)
    (Println ("Telegraf - Version " ++ Version E) ;;
     return_) ;;
  when (fSampleConfig f)
    (call (EvPrintSampleConfig (inputFilters f) (outputFilters f))
       (fun w => (tt, config_PrintSampleConfig E (inputFilters f) (outputFilters f) w)) ;;
     return_) ;;
  when (nonEmpty (fUsage f)) (printUsage (fUsage f)).

(** Lines 214-231. *)
Definition loadConfig (f : Flags) : M loc :=
  if nonEmpty (fConfig f) then
    c <- call EvNewConfig (config_NewConfig E) ;;
    assign c (set_OutputFilters (outputFilters f)) ;;
    assign c (set_InputFilters (inputFilters f)) ;;
    err <- call (EvLoadConfig c (fConfig f)) (config_LoadConfig E c (fConfig f)) ;;
    fatalOn err ;;
    ret c
  else
    Println "Usage: Telegraf" ;;
    emit EvPrintDefaults ;;
    return_.

(** Lines 233-245. *)
Definition mergeDirectories (f : Flags) (c : loc) : M unit :=
  when (nonEmpty (fConfigDirectoryLegacy f))
    (err <- call (EvLoadDirectory c (fConfigDirectoryLegacy f))
              (config_LoadDirectory E c (fConfigDirectoryLegacy f)) ;;
     fatalOn err) ;;
  when (nonEmpty (fConfigDirectory f))
    (err <- call (EvLoadDirectory c (fConfigDirectory f))
              (config_LoadDirectory E c (fConfigDirectory f)) ;;
     fatalOn err).

Definition noOutputs : string :=
  "Error: no outputs found, did you provide a valid config file?".
Definition noInputs : string :=
  "Error: no inputs found, did you provide a valid config file?".

(** Lines 246-251. *)
Definition validate (c : loc) : M unit :=
  w <- get ;;
  when (Nat.eqb (length (config.Outputs (heap w c))) 0) (log_Fatal noOutputs) ;;
  w <- get ;;
  when (Nat.eqb (length (config.Inputs (heap w c))) 0) (log_Fatal noInputs).

(** Lines 253-256. *)
Definition newAgent (c : loc) : M (agent.Agent O) :=
  r <- call (EvNewAgent c) (agent_NewAgent E c) ;;
  match r with
  | inl e => log_Fatal e
  | inr ag => ret ag
  end.

(** Lines 258-264. *)
Definition override (f : Flags) (ag : agent.Agent O) : M unit :=
  when (fDebug f) (assign (agent.Config ag) (set_Debug true)) ;;
  when (fQuiet f) (assign (agent.Config ag) (set_Quiet true)).

(** Lines 284-293. *)
Definition writePidfile (path : string) : M unit :=
  err <- call (EvCreate path) (os_Create E path) ;;
  match err with
  | Some e => log_Fatal ("Unable to create pidfile: " ++ e)
  | None => ret tt
  end ;;
  w <- get ;;
  emit (EvWrite path (decimal (os_Getpid E w) ++ nl)) ;;
  emit (EvClose path).

(** Lines 266-293. *)
Definition launch (f : Flags) (c : loc) (ag : agent.Agent O) : M unit :=
  when (fTest f)
    (err <- call EvTest (agent_Test E ag) ;;
     fatalOn err ;;
     return_) ;;
  err <- call EvConnect (agent_Connect E ag) ;;
  fatalOn err ;;
  log_Printf ("Starting Telegraf (version " ++ Version E ++ ")" ++ nl) ;;
  w <- get ;;
  log_Printf ("Loaded outputs: " ++ strings.Join (config_OutputNames E c w) " ") ;;
  w <- get ;;
  log_Printf ("Loaded inputs: " ++ strings.Join (config_InputNames E c w) " ") ;;
  w <- get ;;
  log_Printf ("Tags enabled: " ++ config_ListTags E c w) ;;
  when (nonEmpty (fPidfile f)) (writePidfile (fPidfile f)).

(** The four lines that [launch] logs once the outputs are connected
    (lines 279-282), for the statements below. *)
Definition banner (c : loc) (w : World) : list event :=
  [ EvLog ("Starting Telegraf (version " ++ Version E ++ ")" ++ nl)%string;
    EvLog ("Loaded outputs: " ++ strings.Join (config_OutputNames E c w) " ")%string;
    EvLog ("Loaded inputs: " ++ strings.Join (config_InputNames E c w) " ")%string;
    EvLog ("Tags enabled: " ++ config_ListTags E c w)%string ].

(** Lines 166-231: up to the primary configuration file. *)
Definition loaded (args : list arg) : M loc :=
  preamble args ;;
  informational (parse args) ;;
  loadConfig (parse args).

(** Lines 166-245: up to a loaded and merged configuration. *)
Definition bootstrap (args : list arg) : M loc :=
  c <- loaded args ;;
  mergeDirectories (parse args) c ;;
  ret c.

(** Lines 166-264: up to an agent with the overrides applied. *)
Definition prepare (args : list arg) : M (loc * agent.Agent O) :=
  c <- bootstrap args ;;
  validate c ;;
  ag <- newAgent c ;;
  override (parse args) ag ;;
  ret (c, ag).

(** The body of the loop of [start], lines 166-293. *)
Definition cycle (args : list arg) : M unit :=
  p <- prepare args ;;
  launch (parse args) (fst p) (snd p).

(** The loop of [start], lines 165-295: [for <-reload { reload <- false; ... }]. *)
Fixpoint loop (fuel : nat) (args : list arg) (reload : chan) : M unit :=
  match fuel with
  | 0 => stop_with OutOfFuel
  | S fuel' =>
      match recv reload with
      | None => stop_with Blocked
      | Some (true, reload1) =>
          match send reload1 false with
          | None => stop_with Blocked
          | Some reload2 =>
              cycle args ;;
              loop fuel' args reload2
          end
      | Some (false, _) => ret tt
      end
  end.

(** Lines 162-296. *)
Definition start (fuel : nat) (args : list arg) : M unit :=
  function
    (let reload := make 1 in
     match send reload true with
     | None => stop_with Blocked
     | Some reload => loop fuel args reload
     end).

(** [if err := f(); err != nil { log.Fatal...(msg err) }; fmt.Printf("Done\n"); return]. *)
Definition serviceCommand (e : event) (f : World -> option error * World)
    (msg : error -> string) : M unit :=
  err <- call e f ;;
  match err with
  | Some x => log_Fatal (msg x)
  | None => ret tt
  end ;;
  Printf ("Done" ++ nl) ;;
  return_.

(** Lines 106-160. *)
Definition main (fuel : nat) (args : list arg) : M unit :=
  let f := parse args in
  function
    (emit EvParse ;;
     when (Nat.eqb (NFlag args) 0) usageExit ;;
     when (fServiceInstall f)
       (serviceCommand
          (EvInstallService (appPath E) (fServiceName f) (fServiceDesc f))
          (winsvc_InstallService E (appPath E) (fServiceName f) (fServiceDesc f))
          (fun err => ("installService(" ++ fServiceName f ++ ", "
                         ++ fServiceDesc f ++ "): " ++ err ++ nl)%string)) ;;
     when (fServiceUninstall f)
       (serviceCommand (EvRemoveService (fServiceName f))
          (winsvc_RemoveService E (fServiceName f))
          (fun err => ("removeService: " ++ err ++ nl)%string)) ;;
     when (fServiceStart f)
       (serviceCommand (EvStartService (fServiceName f))
          (winsvc_StartService E (fServiceName f))
          (fun err => ("startService: " ++ err ++ nl)%string)) ;;
     when (fServiceStop f)
       (serviceCommand (EvStopService (fServiceName f))
          (winsvc_StopService E (fServiceName f))
          (fun err => ("stopService: " ++ err ++ nl)%string)) ;;
     w <- get ;;
     when (negb (winsvc_InServiceMode E w))
       (log_Printf ("main: runService" ++ nl) ;;
        err <- call (EvRunAsService (fServiceName f))
                 (winsvc_RunAsService E (fServiceName f)) ;;
        match err with
        | Some x => log_Fatal ("svc.Run: " ++ x ++ nl)
        | None => ret tt
        end ;;
        return_) ;;
     start fuel args).

End Program.

(** ** A concrete environment

    One plugin registry, one file system and one service manager, on which
    the statements below are evaluated. *)

Module Sample.

Definition emptyConfig : config.Config string :=
  config.mkConfig [] [] [] [] (config.mkAgentConfig false false "") "".

Definition w0 : World unit string := mkWorld (fun _ => emptyConfig) tt.

Definition update (c : loc) (f : config.Config string -> config.Config string)
    (w : World unit string) : World unit string :=
  store c (f (heap w c)) w.

Definition addPlugins (outs ins : list string) (cfg : config.Config string) :=
  config.mkConfig (config.OutputFilters cfg) (config.InputFilters cfg)
    (config.Outputs cfg ++ outs) (config.Inputs cfg ++ ins)
    (config.Agent cfg) (config.configOther cfg).

Definition loadFile (c : loc) (path : string) (w : World unit string) :=
  if String.eqb path "telegraf.conf"
  then (None, update c (addPlugins ["influxdb"] ["cpu"; "mem"]) w)
  else if String.eqb path "inputs.conf"
  then (None, update c (addPlugins [] ["cpu"]) w)
  else if String.eqb path "outputs.conf"
  then (None, update c (addPlugins ["influxdb"] []) w)
  else if String.eqb path "empty.conf"
  then (None, w)
  else (Some ("open " ++ path ++ ": file not found"), w).

Definition loadDir (c : loc) (path : string) (w : World unit string) :=
  if String.eqb path "conf.d"
  then (None, update c (addPlugins ["file"] []) w)
  else if String.eqb path "telegraf.d"
  then (None, update c (addPlugins [] ["disk"]) w)
  else (Some ("open " ++ path ++ ": directory not found"), w).

Definition lookup (kind known name : string) (w : World unit string) :=
  if String.eqb name known then (@None error, w)
  else (Some (kind ++ " " ++ name ++ " not found"), w).

Definition service (name : string) (w : World unit string) :=
  if String.eqb name "denied" then (Some "Access is denied.", w)
  else (@None error, w).

Definition env : Env unit string :=
  {| Version := "0.13.0";
     appPath := "C:\telegraf\telegraf.exe";
     os_Getpid := fun _ => 4242%Z;
     os_Create := fun path w =>
       if String.eqb path "Z:\telegraf.pid"
       then (Some ("open " ++ path ++ ": path not found"), w)
       else (None, w);
     winsvc_InstallService := fun _ name _ => service name;
     winsvc_RemoveService := service;
     winsvc_StartService := service;
     winsvc_StopService := service;
     winsvc_InServiceMode := fun _ => true;
     winsvc_RunAsService := fun _ w => (None, w);
     config_PrintSampleConfig := fun _ _ w => w;
     config_PrintInputConfig := lookup "Input" "cpu";
     config_PrintOutputConfig := lookup "Output" "influxdb";
     config_NewConfig := fun w => (1, store 1 emptyConfig w);
     config_LoadConfig := loadFile;
     config_LoadDirectory := loadDir;
     config_OutputNames := fun c w => config.Outputs (heap w c);
     config_InputNames := fun c w => config.Inputs (heap w c);
     config_ListTags := fun _ _ => "";
     agent_NewAgent := fun c w => (inr (agent.mkAgent c ""), w);
     agent_Test := fun _ w => (None, w);
     agent_Connect := fun _ w => (None, w) |}.

End Sample.


(** The same environment with an agent that cannot be built. *)
Definition noAgentEnv : Env unit string :=
  let E := Sample.env in
  {| Version := Version E;
     appPath := appPath E;
     os_Getpid := os_Getpid E;
     os_Create := os_Create E;
     winsvc_InstallService := winsvc_InstallService E;
     winsvc_RemoveService := winsvc_RemoveService E;
     winsvc_StartService := winsvc_StartService E;
     winsvc_StopService := winsvc_StopService E;
     winsvc_InServiceMode := winsvc_InServiceMode E;
     winsvc_RunAsService := winsvc_RunAsService E;
     config_PrintSampleConfig := config_PrintSampleConfig E;
     config_PrintInputConfig := config_PrintInputConfig E;
     config_PrintOutputConfig := config_PrintOutputConfig E;
     config_NewConfig := config_NewConfig E;
     config_LoadConfig := config_LoadConfig E;
     config_LoadDirectory := config_LoadDirectory E;
     config_OutputNames := config_OutputNames E;
     config_InputNames := config_InputNames E;
     config_ListTags := config_ListTags E;
     agent_NewAgent := fun _ w => (inl "hostname: not available", w);
     agent_Test := agent_Test E;
     agent_Connect := agent_Connect E |}.

(** ** Classes of events *)

Definition isParse (e : event) : bool :=
  match e with EvParse => true | _ => false end.
Definition isNewConfig (e : event) : bool :=
  match e with EvNewConfig => true | _ => false end.
Definition isLoadDirectory (e : event) : bool :=
  match e with EvLoadDirectory _ _ => true | _ => false end.
Definition isNewAgent (e : event) : bool :=
  match e with EvNewAgent _ => true | _ => false end.
Definition isTest (e : event) : bool :=
  match e with EvTest => true | _ => false end.
Definition isConnect (e : event) : bool :=
  match e with EvConnect => true | _ => false end.
(** Anything done to a pidfile. *)
Definition isPidfile (e : event) : bool :=
  match e with EvCreate _ | EvWrite _ _ | EvClose _ => true | _ => false end.
(** Construction or use of the engine. *)
Definition isEngine (e : event) : bool :=
  match e with EvNewAgent _ | EvTest | EvConnect => true | _ => false end.

(** How many events of a class a trace holds. *)
Definition count (p : event -> bool) (t : list event) : nat :=
  length (filter p t).

(** [m] emits at most [n] events of class [p], whatever the world. *)
Definition atMost {W O A} (p : event -> bool) (n : nat) (m : M W O A) : Prop :=
  forall w, count p (trace (m w)) <= n.

(** A computation that neither blocks on a channel nor exhausts the loop bound. *)
Definition proper {W O A} (m : M W O A) : Prop :=
  forall w h, result (m w) = inr h -> h <> OutOfFuel /\ h <> Blocked.

(** Anything asked of the service manager. *)
Definition isService (e : event) : bool :=
  match e with
  | EvInstallService _ _ _ | EvRemoveService _ | EvStartService _
  | EvStopService _ | EvRunAsService _ => true
  | _ => false
  end.

(** Every halt of [m] satisfies [P]. *)
Definition stopsOnly {W O A} (P : halt -> Prop) (m : M W O A) : Prop :=
  forall w h, result (m w) = inr h -> P h.

(** The halts that a cycle plans for: [return] and a fatal error. *)
Definition planned (h : halt) : Prop := h = Returned \/ exists msg, h = Fatal msg.

(** The flag variables, read by flag. *)
Definition boolValue (b : boolFlag) (f : Flags) : bool :=
  match b with
  | flag_debug => fDebug f
  | flag_quiet => fQuiet f
  | flag_test => fTest f
  | flag_version => fVersion f
  | flag_sample_config => fSampleConfig f
  | flag_service_install => fServiceInstall f
  | flag_service_remove => fServiceUninstall f
  | flag_service_start => fServiceStart f
  | flag_service_stop => fServiceStop f
  end.

Definition stringValue (s : stringFlag) (f : Flags) : string :=
  match s with
  | flag_config => fConfig f
  | flag_config_directory => fConfigDirectory f
  | flag_pidfile => fPidfile f
  | flag_input_filter => fInputFilters f
  | flag_output_filter => fOutputFilters f
  | flag_usage => fUsage f
  | flag_service_name => fServiceName f
  | flag_service_desc => fServiceDesc f
  | flag_filter => fInputFiltersLegacy f
  | flag_outputfilter => fOutputFiltersLegacy f
  | flag_configdirectory => fConfigDirectoryLegacy f
  end.

(** The last value given to a flag on the command line, if any. *)
Fixpoint lastBool (b : boolFlag) (args : list arg) : option bool :=
  match args with
  | [] => None
  | a :: rest =>
      match lastBool b rest with
      | Some v => Some v
      | None =>
          match a with
          | SetBool b' v => if flagId_eq_dec (BoolFlag b') (BoolFlag b) then Some v else None
          | SetString _ _ => None
          end
      end
  end.

Fixpoint lastString (s : stringFlag) (args : list arg) : option string :=
  match args with
  | [] => None
  | a :: rest =>
      match lastString s rest with
      | Some v => Some v
      | None =>
          match a with
          | SetString s' v =>
              if flagId_eq_dec (StringFlag s') (StringFlag s) then Some v else None
          | SetBool _ _ => None
          end
      end
  end.

(** How many times a byte occurs in a string. *)
Fixpoint occurrences (c : ascii) (s : string) : nat :=
  match s with
  | EmptyString => 0
  | String c' r => (if Ascii.eqb c' c then 1 else 0) + occurrences c r
  end.

(** ** The command line *)

Lemma nodup_empty (l : list flagId) : length (nodup flagId_eq_dec l) = 0 -> l = [].
Proof.
  destruct l as [| x l]; [reflexivity |].
  intros H. apply length_zero_iff_nil in H.
  assert (Hin : In x (nodup flagId_eq_dec (x :: l))) by (apply nodup_In; left; reflexivity).
  rewrite H in Hin. destruct Hin.
Qed.

(** No flag counted: the command line was empty, all flags are at their defaults. *)
Lemma NFlag_zero args : NFlag args = 0 -> args = [].
Proof.
  unfold NFlag. intros H. apply nodup_empty in H.
  destruct args; [reflexivity | discriminate].
Qed.

Lemma NFlag_nonzero args : parse args <> defaults -> Nat.eqb (NFlag args) 0 = false.
Proof.
  intros H. apply Nat.eqb_neq. intros Hz. apply H.
  rewrite (NFlag_zero args Hz). reflexivity.
Qed.

(** Settings of different flags commute. *)
Lemma setArg_comm f a b :
  argFlag a <> argFlag b -> setArg (setArg f a) b = setArg (setArg f b) a.
Proof.
  destruct f.
  destruct a as [[] ?|[] ?], b as [[] ?|[] ?]; simpl; intros H;
    solve [reflexivity | exfalso; apply H; reflexivity].
Qed.

Lemma fold_setArg_Permutation args args' :
  Permutation args args' -> NoDup (map argFlag args) ->
  forall f, fold_left setArg args f = fold_left setArg args' f.
Proof.
  induction 1 as [| x l l' Hp IH | x y l | l l' l'' Hp1 IH1 Hp2 IH2]; intros Hnd f.
  - reflexivity.
  - simpl. apply IH. simpl in Hnd. inversion Hnd; assumption.
  - simpl. rewrite setArg_comm; [reflexivity |].
    simpl in Hnd. inversion Hnd as [| ? ? Hnotin _]; subst.
    intros Heq. apply Hnotin. left. symmetry. exact Heq.
  - rewrite IH1 by assumption. apply IH2.
    eapply Permutation_NoDup; [| exact Hnd]. apply Permutation_map. exact Hp1.
Qed.

(** When no flag is given twice, the order of the command line is immaterial. *)
Lemma parse_Permutation args args' :
  Permutation args args' -> NoDup (map argFlag args) -> parse args' = parse args.
Proof. intros Hp Hnd. unfold parse. symmetry. apply fold_setArg_Permutation; assumption. Qed.

Lemma NFlag_Permutation args args' :
  Permutation args args' -> NoDup (map argFlag args) -> NFlag args' = NFlag args.
Proof.
  intros Hp Hnd. unfold NFlag.
  assert (Hnd' : NoDup (map argFlag args')).
  { eapply Permutation_NoDup; [| exact Hnd]. apply Permutation_map. exact Hp. }
  rewrite !nodup_fixed_point by assumption.
  rewrite !length_map. symmetry. apply Permutation_length. exact Hp.
Qed.

(** ** Splitting *)

Lemma Split_nonempty s sep : strings.Split s sep <> [].
Proof.
  destruct s as [| c r]; simpl; [discriminate |].
  destruct (Ascii.eqb c sep); [discriminate |].
  destruct (strings.Split r sep); discriminate.
Qed.

(** A separator at the end closes the last field and opens an empty one. *)
Lemma Split_trailing s sep :
  strings.Split (s ++ String sep "") sep = (strings.Split s sep ++ [""])%list.
Proof.
  induction s as [| c r IH]; simpl.
  - rewrite Ascii.eqb_refl. reflexivity.
  - destruct (Ascii.eqb c sep).
    + rewrite IH. reflexivity.
    + rewrite IH. destruct (strings.Split r sep) as [| h t] eqn:Hs.
      * exfalso. exact (Split_nonempty _ _ Hs).
      * reflexivity.
Qed.

(** The colons put around the trimmed flag leave an empty name at either end. *)
Lemma splitFilter_flanked s :
  splitFilter s = "" :: (strings.Split (strings.TrimSpace s) colon ++ [""])%list.
Proof.
  unfold splitFilter.
  change (":" ++ strings.TrimSpace s ++ ":")
    with (String colon (strings.TrimSpace s ++ String colon "")).
  cbn [strings.Split]. rewrite Ascii.eqb_refl, Split_trailing. reflexivity.
Qed.

(** ** Filter flags *)

(** C1 (amended): for both pairs of filter flags the resolved list is the
    split of the current flag when the current flag is not the empty string
    (tested before trimming), else the split of the legacy flag when that is
    not empty, else nil; the split of a flag is the colon-separated names of
    the trimmed flag between two empty strings, so that
    [-input-filter=cpu -filter=mem] resolves to ["", "cpu", ""]. *)
Theorem filter_precedence args :
  let f := parse args in
  let names s := ("" :: strings.Split (strings.TrimSpace s) colon ++ [""])%list in
  let resolved legacy current :=
    if nonEmpty current then names current
    else if nonEmpty legacy then names legacy
    else [] in
  inputFilters f = resolved (fInputFiltersLegacy f) (fInputFilters f) /\
  outputFilters f = resolved (fOutputFiltersLegacy f) (fOutputFilters f) /\
  inputFilters (parse [SetString flag_input_filter "cpu"; SetString flag_filter "mem"])
    = [""; "cpu"; ""].
Proof.
  cbv zeta. unfold inputFilters, outputFilters, resolveFilters.
  repeat split.
  - destruct (nonEmpty (fInputFilters (parse args))),
             (nonEmpty (fInputFiltersLegacy (parse args)));
      try reflexivity; apply splitFilter_flanked.
  - destruct (nonEmpty (fOutputFilters (parse args))),
             (nonEmpty (fOutputFiltersLegacy (parse args)));
      try reflexivity; apply splitFilter_flanked.
Qed.

(** C1 as stated fails twice: the names come between two empty strings, and
    a current flag of white space only still overrides the legacy flag. *)
Lemma filter_precedence_counterexample :
  inputFilters (parse [SetString flag_input_filter "cpu"; SetString flag_filter "mem"])
    <> ["cpu"] /\
  strings.TrimSpace " " = "" /\
  inputFilters (parse [SetString flag_input_filter " "; SetString flag_filter "mem"])
    <> inputFilters (parse [SetString flag_filter "mem"]).
Proof. repeat split; vm_compute; discriminate. Qed.

(** ** Properties *)

Open Scope list_scope.

Section Properties.

Variables W O : Type.
Variable E : Env W O.

(** *** The monad *)

Lemma bind_value A B (m : M W O A) (k : A -> M W O B) w a w1 t1 :
  m w = mkRun (inl a) w1 t1 ->
  bind m k w = mkRun (result (k a w1)) (world (k a w1)) (t1 ++ trace (k a w1)).
Proof. intros H. unfold bind. rewrite H. destruct (k a w1); reflexivity. Qed.

Lemma bind_halt A B (m : M W O A) (k : A -> M W O B) w h w1 t1 :
  m w = mkRun (inr h) w1 t1 ->
  bind m k w = mkRun (inr h) w1 t1.
Proof. intros H. unfold bind. rewrite H. reflexivity. Qed.

Lemma count_app p t1 t2 : count p (t1 ++ t2) = count p t1 + count p t2.
Proof. unfold count. rewrite filter_app, length_app. reflexivity. Qed.

Lemma trace_bind A B (m : M W O A) (k : A -> M W O B) w :
  exists t, trace (bind m k w) = trace (m w) ++ t.
Proof.
  unfold bind. destruct (m w) as [[a | h] w1 t1]; simpl.
  - destruct (k a w1) as [r w2 t2]. simpl. eexists. reflexivity.
  - exists []. rewrite app_nil_r. reflexivity.
Qed.

Lemma atMost_ret A p n (a : A) : atMost p n (ret (W:=W) (O:=O) a).
Proof. intros w. apply Nat.le_0_l. Qed.

Lemma atMost_stop A p n h : atMost p n (stop_with (W:=W) (O:=O) (A:=A) h).
Proof. intros w. apply Nat.le_0_l. Qed.

Lemma atMost_get p n : atMost p n (get (W:=W) (O:=O)).
Proof. intros w. apply Nat.le_0_l. Qed.

Lemma atMost_modify p n f : atMost p n (modify (W:=W) (O:=O) f).
Proof. intros w. apply Nat.le_0_l. Qed.

Lemma atMost_emit p n e : p e = false -> atMost p n (emit (W:=W) (O:=O) e).
Proof. intros H w. unfold count. simpl. rewrite H. apply Nat.le_0_l. Qed.

Lemma atMost_emit_one p n e : atMost p (S n) (emit (W:=W) (O:=O) e).
Proof. intros w. unfold count. simpl. destruct (p e); simpl; lia. Qed.

Lemma atMost_call A p n e (f : World W O -> A * World W O) :
  p e = false -> atMost p n (call e f).
Proof.
  intros H w. unfold call, count. destruct (f w) as [a w']. simpl.
  rewrite H. apply Nat.le_0_l.
Qed.

Lemma atMost_call_one A p n e (f : World W O -> A * World W O) :
  atMost p (S n) (call e f).
Proof.
  intros w. unfold call, count. destruct (f w) as [a w']. simpl.
  destruct (p e); simpl; lia.
Qed.

(** The events of a sequence are those of its parts: a bound on one part
    stands for the whole when the other part is silent. *)
Lemma atMost_bind_first A B p n (m : M W O A) (k : A -> M W O B) :
  atMost p n m -> (forall a, atMost p 0 (k a)) -> atMost p n (bind m k).
Proof.
  intros Hm Hk w. unfold bind. specialize (Hm w).
  destruct (m w) as [[a | h] w1 t1]; simpl in *; [| exact Hm].
  specialize (Hk a w1). destruct (k a w1) as [r w2 t2]. simpl in *.
  rewrite count_app. lia.
Qed.

Lemma atMost_bind_second A B p n (m : M W O A) (k : A -> M W O B) :
  atMost p 0 m -> (forall a, atMost p n (k a)) -> atMost p n (bind m k).
Proof.
  intros Hm Hk w. unfold bind. specialize (Hm w).
  destruct (m w) as [[a | h] w1 t1]; simpl in *; [| lia].
  specialize (Hk a w1). destruct (k a w1) as [r w2 t2]. simpl in *.
  rewrite count_app. lia.
Qed.

Lemma atMost_when p n b (m : M W O unit) : atMost p n m -> atMost p n (when b m).
Proof. intros H. destruct b; simpl; [exact H | apply atMost_ret]. Qed.

Lemma atMost_function p n (m : M W O unit) : atMost p n m -> atMost p n (function m).
Proof.
  intros H w. unfold function. specialize (H w).
  destruct (m w) as [[a | []] w1 t1]; simpl in *; exact H.
Qed.

Lemma trace_function (m : M W O unit) w : trace (function m w) = trace (m w).
Proof. unfold function. destruct (m w) as [[a | []] w1 t1]; reflexivity. Qed.

Lemma atMost_fatalOn p n err : atMost p n (fatalOn (W:=W) (O:=O) err).
Proof. destruct err; [apply atMost_stop | apply atMost_ret]. Qed.

Lemma proper_ret A (a : A) : proper (ret (W:=W) (O:=O) a).
Proof. intros w h H. discriminate. Qed.

Lemma proper_get : proper (get (W:=W) (O:=O)).
Proof. intros w h H. discriminate. Qed.

Lemma proper_modify f : proper (modify (W:=W) (O:=O) f).
Proof. intros w h H. discriminate. Qed.

Lemma proper_emit e : proper (emit (W:=W) (O:=O) e).
Proof. intros w h H. discriminate. Qed.

Lemma proper_call A e (f : World W O -> A * World W O) : proper (call e f).
Proof. intros w h. unfold call. destruct (f w). discriminate. Qed.

Lemma proper_returned A : proper (stop_with (W:=W) (O:=O) (A:=A) Returned).
Proof. intros w h H. injection H as <-. split; discriminate. Qed.

Lemma proper_exit A code : proper (stop_with (W:=W) (O:=O) (A:=A) (Exit code)).
Proof. intros w h H. injection H as <-. split; discriminate. Qed.

Lemma proper_fatal A msg : proper (stop_with (W:=W) (O:=O) (A:=A) (Fatal msg)).
Proof. intros w h H. injection H as <-. split; discriminate. Qed.

Lemma proper_fatalOn err : proper (fatalOn (W:=W) (O:=O) err).
Proof. destruct err; [apply proper_fatal | apply proper_ret]. Qed.

Lemma proper_bind A B (m : M W O A) (k : A -> M W O B) :
  proper m -> (forall a, proper (k a)) -> proper (bind m k).
Proof.
  intros Hm Hk w h. unfold bind. specialize (Hm w).
  destruct (m w) as [[a | h'] w1 t1]; simpl in *.
  - specialize (Hk a w1 h). destruct (k a w1) as [r w2 t2]. exact Hk.
  - intros H. injection H as <-. apply Hm. reflexivity.
Qed.

Lemma proper_when b (m : M W O unit) : proper m -> proper (when b m).
Proof. intros H. destruct b; [exact H | apply proper_ret]. Qed.

Lemma proper_function (m : M W O unit) : proper m -> proper (function m).
Proof.
  intros H w h. unfold function. specialize (H w h).
  destruct (m w) as [[a | h'] w1 t1]; simpl in *; [discriminate |].
  destruct h'; simpl; try discriminate; exact H.
Qed.

End Properties.

Create HintDb trace.

#[export] Hint Resolve atMost_ret atMost_stop atMost_get atMost_modify
  atMost_fatalOn : trace.
#[export] Hint Extern 1 (atMost _ _ (emit _)) =>
  apply atMost_emit; reflexivity : trace.
#[export] Hint Extern 1 (atMost _ _ (call _ _)) =>
  apply atMost_call; reflexivity : trace.

(** No event of the class at all: every part is silent. *)
Ltac silent :=
  lazymatch goal with
  | |- atMost _ _ (bind _ _) =>
      apply atMost_bind_second; [silent | intros; silent]
  | |- atMost _ _ (when _ _) => apply atMost_when; silent
  | |- atMost _ _ (function _) => apply atMost_function; silent
  | |- atMost _ _ (match ?x with _ => _ end) => destruct x; silent
  | |- atMost _ _ _ => solve [auto with trace]
  end.

(** At most one event of the class: one part may emit it, the rest is silent. *)
Ltac single :=
  first
    [ solve [silent]
    | lazymatch goal with
      | |- atMost _ _ (bind _ _) =>
          first [ apply atMost_bind_second; [solve [silent] | intros; single]
                | apply atMost_bind_first; [single | intros; solve [silent]] ]
      | |- atMost _ _ (when _ _) => apply atMost_when; single
      | |- atMost _ _ (function _) => apply atMost_function; single
      | |- atMost _ _ (match ?x with _ => _ end) => destruct x; single
      | |- atMost _ _ (emit _) => apply atMost_emit_one
      | |- atMost _ _ (call _ _) => apply atMost_call_one
      end ].

#[export] Hint Resolve proper_ret proper_get proper_modify proper_emit proper_call
  proper_returned proper_exit proper_fatal proper_fatalOn : trace.

Ltac well_behaved :=
  lazymatch goal with
  | |- proper (bind _ _) => apply proper_bind; [well_behaved | intros; well_behaved]
  | |- proper (when _ _) => apply proper_when; well_behaved
  | |- proper (function _) => apply proper_function; well_behaved
  | |- proper (match ?x with _ => _ end) => destruct x; well_behaved
  | |- proper _ => solve [auto with trace]
  end.

Ltac phases :=
  unfold cycle, prepare, bootstrap, loaded, preamble, informational, loadConfig,
    mergeDirectories, validate, newAgent, override, launch, printUsage,
    writePidfile, usageExit, assign, Println, Printf, log_Printf, log_Fatal,
    os_Exit, return_.

Section Startup.

Variables W O : Type.
Variable E : Env W O.

Lemma cycle_parse args : atMost isParse 1 (cycle E args).
Proof. phases. single. Qed.

Lemma cycle_newConfig args : atMost isNewConfig 1 (cycle E args).
Proof. phases. single. Qed.

Lemma cycle_newAgent args : atMost isNewAgent 1 (cycle E args).
Proof. phases. single. Qed.

Lemma cycle_test args : atMost isTest 1 (cycle E args).
Proof. phases. single. Qed.

Lemma cycle_connect args : atMost isConnect 1 (cycle E args).
Proof. phases. single. Qed.

Lemma bootstrap_engine args : atMost isEngine 0 (bootstrap E args).
Proof. phases. silent. Qed.

Lemma cycle_proper args : proper (cycle E args).
Proof. phases. well_behaved. Qed.

(** What a computation emits first, the sequence it heads emits first. *)
Lemma starts_bind A B p (m : M W O A) (k : A -> M W O B) :
  (forall w, exists t, trace (m w) = p ++ t) ->
  forall w, exists t, trace (bind m k w) = p ++ t.
Proof.
  intros H w. destruct (trace_bind m k w) as [t' Ht'].
  destruct (H w) as [t Ht]. rewrite Ht', Ht, <- app_assoc. eexists. reflexivity.
Qed.

(** Every cycle opens with its [flag.Parse]. *)
Lemma cycle_opens args w : exists t, trace (cycle E args w) = [EvParse] ++ t.
Proof.
  revert w. unfold cycle, prepare, bootstrap, loaded, preamble.
  repeat apply starts_bind.
  intros w. eexists. reflexivity.
Qed.

(** With the token armed once, the loop is one cycle and the check that ends it. *)
Lemma loop_armed n args w :
  loop E (S (S n)) args (mkChan [true] 1) w = bind (cycle E args) (fun _ => ret tt) w.
Proof. reflexivity. Qed.

Lemma start_cycle n args w :
  start E (S (S n)) args w = function (cycle E args) w.
Proof.
  unfold start.
  change (send (make 1) true) with (Some (mkChan [true] 1)). cbv iota.
  unfold function. rewrite loop_armed. unfold bind.
  destruct (cycle E args w) as [[[] | h] w1 t1]; simpl.
  - rewrite app_nil_r. reflexivity.
  - destruct h; reflexivity.
Qed.

(** C2: whatever the arguments and the world, [start] runs the cycle once:
    the token armed before the loop is consumed by the first check and
    replaced by an un-armed one, which the second check reads; the function
    then returns (or the cycle has halted the process before), so that
    [flag.Parse] is called once and a configuration or an agent is built, and
    the agent is tested or connected, at most once. *)
Theorem run_once n args w :
  let r := start E (S (S n)) args w in
  r = function (cycle E args) w /\
  (exists armed consumed unarmed,
      send (make 1) true = Some armed /\
      recv armed = Some (true, consumed) /\
      send consumed false = Some unarmed /\
      forall w', loop E (S n) args unarmed w' = mkRun (inl tt) w' []) /\
  result r <> inr OutOfFuel /\ result r <> inr Blocked /\
  count isParse (trace r) = 1 /\
  count isNewConfig (trace r) <= 1 /\
  count isNewAgent (trace r) <= 1 /\
  count isTest (trace r) <= 1 /\
  count isConnect (trace r) <= 1.
Proof.
  cbv zeta. rewrite start_cycle.
  split; [reflexivity |].
  split.
  { exists (mkChan [true] 1), (mkChan [] 1), (mkChan [false] 1).
    repeat split. }
  assert (Hfuel : result (function (cycle E args) w) <> inr OutOfFuel).
  { intros H. apply (proper_function (cycle_proper args)) in H. tauto. }
  assert (Hblock : result (function (cycle E args) w) <> inr Blocked).
  { intros H. apply (proper_function (cycle_proper args)) in H. tauto. }
  pose proof (atMost_function (cycle_parse args) w) as Hparse.
  pose proof (atMost_function (cycle_newConfig args) w) as Hconfig.
  pose proof (atMost_function (cycle_newAgent args) w) as Hagent.
  pose proof (atMost_function (cycle_test args) w) as Htest.
  pose proof (atMost_function (cycle_connect args) w) as Hconnect.
  repeat split; try assumption.
  apply Nat.le_antisymm; [exact Hparse |].
  destruct (cycle_opens args w) as [t Ht].
  rewrite trace_function, Ht. unfold count. simpl. lia.
Qed.

Lemma function_halt (m : M W O unit) w h w1 t1 :
  m w = mkRun (inr h) w1 t1 -> h <> Returned ->
  function m w = mkRun (inr h) w1 t1.
Proof.
  intros H Hh. unfold function. rewrite H. simpl.
  destruct h; try reflexivity. exfalso. apply Hh. reflexivity.
Qed.

Lemma function_returned (m : M W O unit) w w1 t1 :
  m w = mkRun (inr Returned) w1 t1 ->
  function m w = mkRun (inl tt) w1 t1.
Proof. intros H. unfold function. rewrite H. reflexivity. Qed.

Lemma function_value (m : M W O unit) w w1 t1 :
  m w = mkRun (inl tt) w1 t1 ->
  function m w = mkRun (inl tt) w1 t1.
Proof. intros H. unfold function. rewrite H. reflexivity. Qed.

(** The cycle reads the command line through [parse] and [NFlag] only. *)
Lemma cycle_ext args args' :
  parse args' = parse args -> NFlag args' = NFlag args ->
  cycle E args' = cycle E args.
Proof.
  intros Hp Hn. unfold cycle, prepare, bootstrap, loaded, preamble.
  rewrite Hp, Hn. reflexivity.
Qed.

(** C3: when the configuration that the primary file and the directories
    leave behind has no outputs, or no inputs, the cycle halts with a fatal
    message, one for the outputs and another for the inputs, in the world and
    with the trace that the merges left: no agent is built, tested or
    connected, before or after. *)
Theorem validation_before_construction n args w c w1 t1 :
  bootstrap E args w = mkRun (inl c) w1 t1 ->
  config.Outputs (heap w1 c) = [] \/ config.Inputs (heap w1 c) = [] ->
  start E (S (S n)) args w =
    mkRun (inr (Fatal (match config.Outputs (heap w1 c) with
                       | [] => noOutputs
                       | _ :: _ => noInputs
                       end))) w1 t1 /\
  noOutputs <> noInputs /\
  count isEngine t1 = 0.
Proof.
  intros Hb Hempty. split; [| split].
  - rewrite start_cycle. apply function_halt; [| discriminate].
    unfold cycle. apply bind_halt.
    unfold prepare. erewrite bind_value by exact Hb.
    unfold validate, bind, get, when, log_Fatal, stop_with. simpl.
    destruct (config.Outputs (heap w1 c)) as [| o os]; simpl.
    + rewrite app_nil_r. reflexivity.
    + destruct Hempty as [Ho | Hi]; [discriminate |].
      rewrite Hi. simpl. rewrite app_nil_r. reflexivity.
  - discriminate.
  - pose proof (bootstrap_engine args w) as H. rewrite Hb in H. simpl in H. lia.
Qed.

Lemma nonEmpty_true s : s <> "" -> nonEmpty s = true.
Proof.
  intros H. unfold nonEmpty. destruct (String.eqb_spec s ""); [contradiction | reflexivity].
Qed.

Lemma loaded_loadDirectory args : atMost isLoadDirectory 0 (loaded E args).
Proof. phases. silent. Qed.

(** C4: once the primary file is loaded and both directory flags are set,
    the directory of [-configdirectory] is merged first and the directory of
    [-config-directory] second, into the same configuration; an error of the
    first merge is fatal before the second is tried, an error of the second
    is fatal as well, and no directory was merged earlier.  The order in
    which the flags stood on the command line changes nothing. *)
Theorem merge_order n args w c w1 t1 :
  loaded E args w = mkRun (inl c) w1 t1 ->
  fConfigDirectoryLegacy (parse args) <> "" ->
  fConfigDirectory (parse args) <> "" ->
  let legacy := fConfigDirectoryLegacy (parse args) in
  let current := fConfigDirectory (parse args) in
  let r1 := config_LoadDirectory E c legacy w1 in
  let r2 := config_LoadDirectory E c current (snd r1) in
  count isLoadDirectory t1 = 0 /\
  match fst r1, fst r2 with
  | Some e, _ =>
      start E (S (S n)) args w =
        mkRun (inr (Fatal e)) (snd r1) (t1 ++ [EvLoadDirectory c legacy])
  | None, Some e =>
      start E (S (S n)) args w =
        mkRun (inr (Fatal e)) (snd r2)
          (t1 ++ [EvLoadDirectory c legacy; EvLoadDirectory c current])
  | None, None =>
      bootstrap E args w =
        mkRun (inl c) (snd r2)
          (t1 ++ [EvLoadDirectory c legacy; EvLoadDirectory c current])
  end /\
  forall args', Permutation args args' -> NoDup (map argFlag args) ->
                start E (S (S n)) args' w = start E (S (S n)) args w.
Proof.
  intros Hl Hlegacy Hcurrent. cbv zeta. split; [| split].
  - pose proof (loaded_loadDirectory args w) as H. rewrite Hl in H. simpl in H. lia.
  - destruct (config_LoadDirectory E c (fConfigDirectoryLegacy (parse args)) w1)
      as [err1 w2] eqn:H1. simpl fst. simpl snd.
    destruct err1 as [e1 |].
    + rewrite start_cycle. apply function_halt; [| discriminate].
      unfold cycle, prepare. do 2 apply bind_halt.
      unfold bootstrap. erewrite bind_value by exact Hl.
      unfold mergeDirectories, bind, call, fatalOn, log_Fatal, stop_with.
      rewrite (nonEmpty_true Hlegacy). simpl. rewrite H1. simpl. reflexivity.
    + destruct (config_LoadDirectory E c (fConfigDirectory (parse args)) w2)
        as [err2 w3] eqn:H2. simpl fst. simpl snd.
      destruct err2 as [e2 |].
      * rewrite start_cycle. apply function_halt; [| discriminate].
        unfold cycle, prepare. do 2 apply bind_halt.
        unfold bootstrap. erewrite bind_value by exact Hl.
        unfold mergeDirectories, bind, call, fatalOn, log_Fatal, stop_with.
        rewrite (nonEmpty_true Hlegacy), (nonEmpty_true Hcurrent). simpl.
        rewrite H1. simpl. rewrite H2. simpl. reflexivity.
      * unfold bootstrap. erewrite bind_value by exact Hl.
        unfold mergeDirectories, bind, call, fatalOn, ret.
        rewrite (nonEmpty_true Hlegacy), (nonEmpty_true Hcurrent). simpl.
        rewrite H1. simpl. rewrite H2. simpl. reflexivity.
  - intros args' Hp Hnd. rewrite !start_cycle.
    rewrite (@cycle_ext args args');
      [reflexivity | apply parse_Permutation | apply NFlag_Permutation]; assumption.
Qed.

(** What halts before the primary file is loaded halts the cycle. *)
Lemma cycle_halts_loading args w h w1 t1 :
  loaded E args w = mkRun (inr h) w1 t1 ->
  cycle E args w = mkRun (inr h) w1 t1.
Proof.
  intros H. unfold cycle, prepare, bootstrap. do 3 apply bind_halt. exact H.
Qed.

(** *** The phases, run *)

Lemma call_run A e (f : World W O -> A * World W O) w :
  call e f w = mkRun (inl (fst (f w))) (snd (f w)) [e].
Proof. unfold call. destruct (f w). reflexivity. Qed.

Lemma preamble_run args (w : World W O) :
  preamble args w =
    if Nat.eqb (NFlag args) 0
    then mkRun (inr (Exit 0)) w [EvParse; EvStdout (usage ++ nl)%string]
    else mkRun (inl tt) w [EvParse].
Proof. unfold preamble. destruct (Nat.eqb (NFlag args) 0); reflexivity. Qed.

Lemma printUsage_run name w :
  let r1 := config_PrintInputConfig E name w in
  let r2 := config_PrintOutputConfig E name (snd r1) in
  printUsage E name w =
    match fst r1 with
    | None => mkRun (inr Returned) (snd r1) [EvPrintInputConfig name]
    | Some e1 =>
        mkRun
          (inr match fst r2 with
               | Some e2 => Fatal (e1 ++ " and " ++ e2)%string
               | None => Returned
               end)
          (snd r2)
          [EvPrintInputConfig name; EvPrintOutputConfig name]
    end.
Proof.
  cbv zeta. unfold printUsage, bind. rewrite call_run.
  destruct (config_PrintInputConfig E name w) as [[e1 |] w1]; simpl; [| reflexivity].
  rewrite call_run.
  destruct (config_PrintOutputConfig E name w1) as [[e2 |] w2]; reflexivity.
Qed.

Lemma informational_run f w :
  informational E f w =
    if fVersion f then
      mkRun (inr Returned) w [EvStdout ("Telegraf - Version " ++ Version E ++ nl)%string]
    else if fSampleConfig f then
      mkRun (inr Returned)
        (config_PrintSampleConfig E (inputFilters f) (outputFilters f) w)
        [EvPrintSampleConfig (inputFilters f) (outputFilters f)]
    else if nonEmpty (fUsage f) then
      printUsage E (fUsage f) w
    else mkRun (inl tt) w [].
Proof.
  unfold informational.
  destruct (fVersion f); [reflexivity |].
  destruct (fSampleConfig f); [reflexivity |].
  destruct (nonEmpty (fUsage f)); [| reflexivity].
  unfold bind, when, ret.
  destruct (printUsage E (fUsage f) w) as [[[] | h] w1 t1]; reflexivity.
Qed.

Lemma loadConfig_none f w :
  nonEmpty (fConfig f) = false ->
  loadConfig E f w =
    mkRun (inr Returned) w [EvStdout ("Usage: Telegraf" ++ nl)%string; EvPrintDefaults].
Proof. intros H. unfold loadConfig. rewrite H. reflexivity. Qed.

Lemma loadConfig_opens f :
  nonEmpty (fConfig f) = true ->
  forall w, exists t, trace (loadConfig E f w) = [EvNewConfig] ++ t.
Proof.
  intros H. unfold loadConfig. rewrite H. apply starts_bind.
  intros w. rewrite call_run. eexists. reflexivity.
Qed.

Lemma validate_run c (w : World W O) :
  validate c w =
    mkRun match config.Outputs (heap w c), config.Inputs (heap w c) with
          | [], _ => inr (Fatal noOutputs)
          | _ :: _, [] => inr (Fatal noInputs)
          | _ :: _, _ :: _ => inl tt
          end w [].
Proof.
  unfold validate, bind, get.
  destruct (config.Outputs (heap w c)); simpl; [reflexivity |].
  destruct (config.Inputs (heap w c)); reflexivity.
Qed.

(** The cycle up to the primary file. *)
Lemma loaded_run args w :
  loaded E args w =
    if Nat.eqb (NFlag args) 0
    then mkRun (inr (Exit 0)) w [EvParse; EvStdout (usage ++ nl)%string]
    else
      match informational E (parse args) w with
      | mkRun (inl _) w1 t1 =>
          match loadConfig E (parse args) w1 with
          | mkRun r w2 t2 => mkRun r w2 (EvParse :: t1 ++ t2)
          end
      | mkRun (inr h) w1 t1 => mkRun (inr h) w1 (EvParse :: t1)
      end.
Proof.
  unfold loaded. unfold bind at 1. rewrite preamble_run.
  destruct (Nat.eqb (NFlag args) 0); [reflexivity |].
  unfold bind.
  destruct (informational E (parse args) w) as [[[] | h] w1 t1]; [| reflexivity].
  destruct (loadConfig E (parse args) w1) as [r w2 t2]. reflexivity.
Qed.

(** The informational requests, case by case (lines 166-231). *)
Lemma start_informational n args w :
  let f := parse args in
  let r := start E (S (S n)) args w in
  if Nat.eqb (NFlag args) 0 then
    r = mkRun (inr (Exit 0)) w [EvParse; EvStdout (usage ++ nl)%string]
  else if fVersion f then
    r = mkRun (inl tt) w
          [EvParse; EvStdout ("Telegraf - Version " ++ Version E ++ nl)%string]
  else if fSampleConfig f then
    r = mkRun (inl tt)
          (config_PrintSampleConfig E (inputFilters f) (outputFilters f) w)
          [EvParse; EvPrintSampleConfig (inputFilters f) (outputFilters f)]
  else if nonEmpty (fUsage f) then
    let r1 := config_PrintInputConfig E (fUsage f) w in
    let r2 := config_PrintOutputConfig E (fUsage f) (snd r1) in
    match fst r1 with
    | None =>
        r = mkRun (inl tt) (snd r1) [EvParse; EvPrintInputConfig (fUsage f)]
    | Some e1 =>
        r = mkRun
              match fst r2 with
              | Some e2 => inr (Fatal (e1 ++ " and " ++ e2)%string)
              | None => inl tt
              end
              (snd r2)
              [EvParse; EvPrintInputConfig (fUsage f); EvPrintOutputConfig (fUsage f)]
    end
  else if nonEmpty (fConfig f) then
    exists t, trace r = EvParse :: EvNewConfig :: t
  else
    r = mkRun (inl tt) w
          [EvParse; EvStdout ("Usage: Telegraf" ++ nl)%string; EvPrintDefaults].
Proof.
  cbv zeta. rewrite start_cycle.
  pose proof (loaded_run args w) as Hl.
  rewrite informational_run in Hl.
  destruct (Nat.eqb (NFlag args) 0) eqn:Hn.
  { apply function_halt; [| discriminate]. apply cycle_halts_loading. exact Hl. }
  destruct (fVersion (parse args)) eqn:Hv.
  { apply function_returned. apply cycle_halts_loading. exact Hl. }
  destruct (fSampleConfig (parse args)) eqn:Hs.
  { apply function_returned. apply cycle_halts_loading. exact Hl. }
  destruct (nonEmpty (fUsage (parse args))) eqn:Hu.
  { rewrite printUsage_run in Hl.
    destruct (fst (config_PrintInputConfig E (fUsage (parse args)) w)) as [e1 |].
    - destruct (fst (config_PrintOutputConfig E (fUsage (parse args))
                       (snd (config_PrintInputConfig E (fUsage (parse args)) w))))
        as [e2 |].
      + apply function_halt; [| discriminate]. apply cycle_halts_loading. exact Hl.
      + apply function_returned. apply cycle_halts_loading. exact Hl.
    - apply function_returned. apply cycle_halts_loading. exact Hl. }
  destruct (nonEmpty (fConfig (parse args))) eqn:Hc.
  - rewrite trace_function.
    change (exists t, trace (cycle E args w) = [EvParse; EvNewConfig] ++ t).
    unfold cycle, prepare, bootstrap. do 3 apply starts_bind.
    clear w Hl. intros w. rewrite loaded_run, informational_run, Hn, Hv, Hs, Hu.
    destruct (loadConfig_opens _ Hc w) as [t Ht].
    destruct (loadConfig E (parse args) w) as [r w2 t2]. simpl in *.
    subst t2. eexists. reflexivity.
  - rewrite (loadConfig_none _ _ Hc) in Hl.
    apply function_returned. apply cycle_halts_loading. exact Hl.
Qed.

(** C8 (amended): after the check for a command line without flags, the
    requests are tried in the order version, sample configuration, plugin
    usage, missing [-config]; the first that applies is handled, whatever the
    later ones are, and ends the cycle before any configuration is built.
    The cycle then ends with success, except that a usage request whose input
    and output lookups both fail halts fatally.  Without any flag the usage
    text is printed and the process exits with status 0 before the four are
    tried; with [-config] and none of the other three, bootstrapping starts. *)
Theorem informational_precedence n args w :
  let f := parse args in
  let r := start E (S (S n)) args w in
  if Nat.eqb (NFlag args) 0 then
    r = mkRun (inr (Exit 0)) w [EvParse; EvStdout (usage ++ nl)%string]
  else if fVersion f then
    r = mkRun (inl tt) w
          [EvParse; EvStdout ("Telegraf - Version " ++ Version E ++ nl)%string]
  else if fSampleConfig f then
    r = mkRun (inl tt)
          (config_PrintSampleConfig E (inputFilters f) (outputFilters f) w)
          [EvParse; EvPrintSampleConfig (inputFilters f) (outputFilters f)]
  else if nonEmpty (fUsage f) then
    let r1 := config_PrintInputConfig E (fUsage f) w in
    let r2 := config_PrintOutputConfig E (fUsage f) (snd r1) in
    match fst r1 with
    | None =>
        r = mkRun (inl tt) (snd r1) [EvParse; EvPrintInputConfig (fUsage f)]
    | Some e1 =>
        r = mkRun
              match fst r2 with
              | Some e2 => inr (Fatal (e1 ++ " and " ++ e2)%string)
              | None => inl tt
              end
              (snd r2)
              [EvParse; EvPrintInputConfig (fUsage f); EvPrintOutputConfig (fUsage f)]
    end
  else if nonEmpty (fConfig f) then
    exists t, trace r = EvParse :: EvNewConfig :: t
  else
    r = mkRun (inl tt) w
          [EvParse; EvStdout ("Usage: Telegraf" ++ nl)%string; EvPrintDefaults].
Proof. exact (start_informational n args w). Qed.

(** C5: when the usage request is the one handled, a plugin name that the
    input lookup and the output lookup both reject gives one fatal message
    made of the two errors; a name that the input lookup accepts is printed
    as an input and the output lookup is not called at all; a name that only
    the output lookup accepts is printed as an output. *)
Theorem usage_fallback n args w :
  fVersion (parse args) = false ->
  fSampleConfig (parse args) = false ->
  fUsage (parse args) <> "" ->
  let name := fUsage (parse args) in
  let r1 := config_PrintInputConfig E name w in
  let r2 := config_PrintOutputConfig E name (snd r1) in
  let r := start E (S (S n)) args w in
  match fst r1, fst r2 with
  | Some e1, Some e2 =>
      r = mkRun (inr (Fatal (e1 ++ " and " ++ e2)%string)) (snd r2)
            [EvParse; EvPrintInputConfig name; EvPrintOutputConfig name]
  | Some e1, None =>
      r = mkRun (inl tt) (snd r2)
            [EvParse; EvPrintInputConfig name; EvPrintOutputConfig name]
  | None, _ =>
      r = mkRun (inl tt) (snd r1) [EvParse; EvPrintInputConfig name]
  end.
Proof.
  intros Hv Hs Hu. cbv zeta.
  pose proof (start_informational n args w) as H. cbv zeta in H.
  rewrite NFlag_nonzero, Hv, Hs, (nonEmpty_true Hu) in H.
  - destruct (fst (config_PrintInputConfig E (fUsage (parse args)) w)); [| exact H].
    destruct (fst (config_PrintOutputConfig E (fUsage (parse args))
                     (snd (config_PrintInputConfig E (fUsage (parse args)) w))));
      exact H.
  - intros Hd. apply Hu. rewrite Hd. reflexivity.
Qed.

(** *** The agent *)

Lemma writePidfile_run path w :
  let r := os_Create E path w in
  writePidfile E path w =
    match fst r with
    | Some e =>
        mkRun (inr (Fatal ("Unable to create pidfile: " ++ e)%string)) (snd r)
          [EvCreate path]
    | None =>
        mkRun (inl tt) (snd r)
          [EvCreate path;
           EvWrite path (decimal (os_Getpid E (snd r)) ++ nl)%string;
           EvClose path]
    end.
Proof.
  cbv zeta. unfold writePidfile, bind. rewrite call_run.
  destruct (os_Create E path w) as [[e |] w1]; reflexivity.
Qed.

Lemma launch_test f c ag w :
  fTest f = true ->
  let r := agent_Test E ag w in
  launch E f c ag w =
    mkRun (inr match fst r with
               | Some e => Fatal e
               | None => Returned
               end) (snd r) [EvTest].
Proof.
  intros Ht. cbv zeta. unfold launch. rewrite Ht. unfold when, bind.
  rewrite call_run.
  destruct (agent_Test E ag w) as [[e |] w1]; reflexivity.
Qed.

Lemma launch_run f c ag w :
  fTest f = false ->
  let r1 := agent_Connect E ag w in
  let r2 := os_Create E (fPidfile f) (snd r1) in
  launch E f c ag w =
    match fst r1 with
    | Some e => mkRun (inr (Fatal e)) (snd r1) [EvConnect]
    | None =>
        if nonEmpty (fPidfile f) then
          match fst r2 with
          | Some e =>
              mkRun (inr (Fatal ("Unable to create pidfile: " ++ e)%string)) (snd r2)
                (EvConnect :: banner E c (snd r1) ++ [EvCreate (fPidfile f)])
          | None =>
              mkRun (inl tt) (snd r2)
                (EvConnect :: banner E c (snd r1) ++
                   [EvCreate (fPidfile f);
                    EvWrite (fPidfile f) (decimal (os_Getpid E (snd r2)) ++ nl)%string;
                    EvClose (fPidfile f)])
          end
        else mkRun (inl tt) (snd r1) (EvConnect :: banner E c (snd r1))
    end.
Proof.
  intros Ht. cbv zeta. unfold launch. rewrite Ht.
  unfold when, bind, call, fatalOn, get, log_Printf, log_Fatal, emit, ret, stop_with.
  destruct (agent_Connect E ag w) as [[e |] w1]; cbv beta iota; cbn [fst snd];
    [reflexivity |].
  destruct (nonEmpty (fPidfile f)); [| reflexivity].
  rewrite writePidfile_run.
  destruct (os_Create E (fPidfile f) w1) as [[e |] w2]; reflexivity.
Qed.

Lemma cycle_launch args w c ag w1 t1 :
  prepare E args w = mkRun (inl (c, ag)) w1 t1 ->
  cycle E args w =
    match launch E (parse args) c ag w1 with
    | mkRun r w2 t2 => mkRun r w2 (t1 ++ t2)
    end.
Proof. intros H. unfold cycle, bind. rewrite H. reflexivity. Qed.

Lemma prepare_pidfile args : atMost isPidfile 0 (prepare E args).
Proof. phases. silent. Qed.

Lemma prepare_connect args : atMost isConnect 0 (prepare E args).
Proof. phases. silent. Qed.

Lemma prepare_test args : atMost isTest 0 (prepare E args).
Proof. phases. silent. Qed.

Lemma launch_test_silent p args :
  fTest (parse args) = true -> p EvTest = false ->
  forall a, atMost p 0 (launch E (parse args) (fst a) (snd a)).
Proof.
  intros Ht Hp a w. rewrite launch_test by exact Ht. unfold count. simpl.
  rewrite Hp. apply Nat.le_refl.
Qed.

(** An agent is built from a validated configuration only. *)
Lemma prepare_validated args w c ag w1 t1 :
  prepare E args w = mkRun (inl (c, ag)) w1 t1 ->
  exists w0 t0,
    bootstrap E args w = mkRun (inl c) w0 t0 /\
    config.Outputs (heap w0 c) <> [] /\
    config.Inputs (heap w0 c) <> [].
Proof.
  unfold prepare. unfold bind at 1.
  destruct (bootstrap E args w) as [[c' | h] w0 t0]; [| discriminate].
  unfold bind at 1. rewrite validate_run.
  destruct (config.Outputs (heap w0 c')) as [| o outs] eqn:Ho; [discriminate |].
  destruct (config.Inputs (heap w0 c')) as [| i ins] eqn:Hi; [discriminate |].
  unfold bind, ret.
  destruct (newAgent E c' w0) as [[ag' | h] w2 t2]; [| discriminate].
  destruct (override (parse args) ag' w2) as [[[] | h] w3 t3]; [| discriminate].
  intros H. injection H as Hc Hag Hw Ht. subst c'.
  exists w0, t0. rewrite Ho, Hi. repeat split; discriminate.
Qed.

(** C7: in run mode with a pidfile path, once the agent is built the
    outputs are connected first; if that fails the cycle is fatal and no
    pidfile exists; else the four lines are logged and the pidfile is created,
    written with the process id in decimal and a newline, and closed, once,
    and [start] returns; a failure to create it is fatal with its own
    message.  Nothing touches a pidfile before, and the agent came from a
    configuration that passed validation. *)
Theorem run_mode_pidfile n args w c ag w1 t1 :
  prepare E args w = mkRun (inl (c, ag)) w1 t1 ->
  fTest (parse args) = false ->
  fPidfile (parse args) <> "" ->
  let path := fPidfile (parse args) in
  let r := start E (S (S n)) args w in
  let r1 := agent_Connect E ag w1 in
  let r2 := os_Create E path (snd r1) in
  count isPidfile t1 = 0 /\
  count isConnect t1 = 0 /\
  (exists w0 t0,
      bootstrap E args w = mkRun (inl c) w0 t0 /\
      config.Outputs (heap w0 c) <> [] /\
      config.Inputs (heap w0 c) <> []) /\
  match fst r1 with
  | Some e => r = mkRun (inr (Fatal e)) (snd r1) (t1 ++ [EvConnect])
  | None =>
      match fst r2 with
      | Some e =>
          r = mkRun (inr (Fatal ("Unable to create pidfile: " ++ e)%string)) (snd r2)
                (t1 ++ EvConnect :: banner E c (snd r1) ++ [EvCreate path])
      | None =>
          r = mkRun (inl tt) (snd r2)
                (t1 ++ EvConnect :: banner E c (snd r1) ++
                   [EvCreate path;
                    EvWrite path (decimal (os_Getpid E (snd r2)) ++ nl)%string;
                    EvClose path])
      end
  end.
Proof.
  intros Hp Ht Hpid. cbv zeta.
  split; [| split; [| split]].
  - pose proof (prepare_pidfile args w) as H. rewrite Hp in H. simpl in H. lia.
  - pose proof (prepare_connect args w) as H. rewrite Hp in H. simpl in H. lia.
  - exact (prepare_validated _ _ Hp).
  - rewrite start_cycle.
    pose proof (@cycle_launch args w c ag w1 t1 Hp) as Hc.
    rewrite launch_run in Hc by exact Ht. cbv zeta in Hc.
    rewrite (nonEmpty_true Hpid) in Hc.
    destruct (fst (agent_Connect E ag w1)).
    + apply function_halt; [exact Hc | discriminate].
    + destruct (fst (os_Create E (fPidfile (parse args))
                       (snd (agent_Connect E ag w1)))).
      * apply function_halt; [exact Hc | discriminate].
      * apply function_value. exact Hc.
Qed.

(** *** The overrides *)

(** C10: the override step yields no event and cannot fail; it leaves every
    configuration but the agent's untouched, and in the agent's configuration
    it changes nothing but [Agent.Debug] and [Agent.Quiet], each of which
    becomes true when its flag is set and keeps its value when not. *)
Theorem override_one_directional f (ag : agent.Agent O) (w : World W O) :
  let c := agent.Config ag in
  let old := heap w c in
  let r := override f ag w in
  result r = inl tt /\
  trace r = [] /\
  ext (world r) = ext w /\
  forall l,
    heap (world r) l =
      if Nat.eqb l c then
        config.mkConfig (config.OutputFilters old) (config.InputFilters old)
          (config.Outputs old) (config.Inputs old)
          (config.mkAgentConfig
             (fDebug f || config.Debug (config.Agent old))
             (fQuiet f || config.Quiet (config.Agent old))
             (config.agentOther (config.Agent old)))
          (config.configOther old)
      else heap w l.
Proof.
  cbv zeta. unfold override, when, bind, assign, modify, ret, store.
  destruct (fDebug f), (fQuiet f); simpl; repeat split; intros l;
    destruct (Nat.eqb l (agent.Config ag)) eqn:Hl; try reflexivity;
    try (rewrite Nat.eqb_refl); try reflexivity;
    apply Nat.eqb_eq in Hl; subst l;
    destruct (heap w (agent.Config ag)) as [ofs ifs outs ins [d q ao] co];
    reflexivity.
Qed.

(** *** The service commands *)

Lemma serviceCommand_run e f msg (w : World W O) :
  serviceCommand e f msg w =
    mkRun (inr match fst (f w) with
               | Some x => Fatal (msg x)
               | None => Returned
               end)
      (snd (f w))
      (e :: match fst (f w) with
            | Some _ => []
            | None => [EvStdout ("Done" ++ nl)%string]
            end).
Proof.
  unfold serviceCommand, bind. rewrite call_run.
  destruct (f w) as [[x |] w1]; reflexivity.
Qed.

Lemma bind_emit A e (k : unit -> M W O A) w :
  bind (emit e) k w =
    match k tt w with
    | mkRun r w2 t2 => mkRun r w2 (e :: t2)
    end.
Proof. reflexivity. Qed.

Lemma bind_ret A B (a : A) (k : A -> M W O B) w : bind (ret a) k w = k a w.
Proof. unfold bind, ret. destruct (k a w). reflexivity. Qed.

(** C9: when a service flag is set, [main] issues one service command, that
    of the first flag set among install, remove, start and stop, and ends:
    on success it prints [Done] and returns, on failure it halts with a fatal
    message.  Its only other event is its own [flag.Parse]: [start] is not
    called, whatever the loop bound. *)
Theorem administrative_terminal fuel args w :
  let f := parse args in
  fServiceInstall f || fServiceUninstall f || fServiceStart f || fServiceStop f = true ->
  let outcome (e : event) (res : option error * World W O) (msg : error -> string) :=
    mkRun match fst res with
          | Some x => inr (Fatal (msg x))
          | None => inl tt
          end
      (snd res)
      (EvParse :: e :: match fst res with
                       | Some _ => []
                       | None => [EvStdout ("Done" ++ nl)%string]
                       end) in
  main E fuel args w =
    if fServiceInstall f then
      outcome (EvInstallService (appPath E) (fServiceName f) (fServiceDesc f))
        (winsvc_InstallService E (appPath E) (fServiceName f) (fServiceDesc f) w)
        (fun err => ("installService(" ++ fServiceName f ++ ", "
                       ++ fServiceDesc f ++ "): " ++ err ++ nl)%string)
    else if fServiceUninstall f then
      outcome (EvRemoveService (fServiceName f))
        (winsvc_RemoveService E (fServiceName f) w)
        (fun err => ("removeService: " ++ err ++ nl)%string)
    else if fServiceStart f then
      outcome (EvStartService (fServiceName f))
        (winsvc_StartService E (fServiceName f) w)
        (fun err => ("startService: " ++ err ++ nl)%string)
    else
      outcome (EvStopService (fServiceName f))
        (winsvc_StopService E (fServiceName f) w)
        (fun err => ("stopService: " ++ err ++ nl)%string).
Proof.
  cbv zeta. intros Hset.
  assert (Hn : Nat.eqb (NFlag args) 0 = false).
  { apply NFlag_nonzero. intros Hd. rewrite Hd in Hset. discriminate. }
  unfold main, function. rewrite Hn. rewrite bind_emit. cbv beta.
  unfold when at 1. rewrite bind_ret.
  destruct (fServiceInstall (parse args)).
  { unfold when at 1. unfold bind at 1. rewrite serviceCommand_run.
    destruct (fst (winsvc_InstallService E (appPath E) (fServiceName (parse args))
                     (fServiceDesc (parse args)) w)); reflexivity. }
  unfold when at 1. rewrite bind_ret.
  destruct (fServiceUninstall (parse args)).
  { unfold when at 1. unfold bind at 1. rewrite serviceCommand_run.
    destruct (fst (winsvc_RemoveService E (fServiceName (parse args)) w));
      reflexivity. }
  unfold when at 1. rewrite bind_ret.
  destruct (fServiceStart (parse args)).
  { unfold when at 1. unfold bind at 1. rewrite serviceCommand_run.
    destruct (fst (winsvc_StartService E (fServiceName (parse args)) w));
      reflexivity. }
  unfold when at 1. rewrite bind_ret.
  destruct (fServiceStop (parse args)); [| discriminate].
  unfold when at 1. unfold bind at 1. rewrite serviceCommand_run.
  destruct (fst (winsvc_StopService E (fServiceName (parse args)) w));
    reflexivity.
Qed.

End Startup.

(** ** The statements on the concrete environment *)

(** C8 as stated fails for a plugin that is neither an input nor an output:
    the usage request is the one handled, and the cycle does not end with
    success but halts fatally. *)
Lemma informational_precedence_counterexample :
  let args := [SetString flag_usage "nosuch"] in
  let r := start Sample.env 2 args Sample.w0 in
  fVersion (parse args) = false /\
  fSampleConfig (parse args) = false /\
  fUsage (parse args) = "nosuch" /\
  result r = inr (Fatal "Input nosuch not found and Output nosuch not found") /\
  result r <> inl tt.
Proof. cbv zeta. repeat split. discriminate. Qed.

(** Reads the result and the trace off an equation on a run. *)
Ltac observe H :=
  split; [exact (f_equal (fun r => result r) H) | exact (f_equal (fun r => trace r) H)].

(** A primary file with inputs only: fatal for the outputs, no agent. *)
Lemma validation_before_construction_witness :
  let args := [SetString flag_config "inputs.conf"] in
  let r := start Sample.env 2 args Sample.w0 in
  result r = inr (Fatal noOutputs) /\
  trace r = [EvParse; EvNewConfig; EvLoadConfig 1 "inputs.conf"].
Proof.
  cbv zeta.
  destruct (@validation_before_construction unit string Sample.env 0
              [SetString flag_config "inputs.conf"] Sample.w0 1
              (world (bootstrap Sample.env [SetString flag_config "inputs.conf"] Sample.w0))
              [EvParse; EvNewConfig; EvLoadConfig 1 "inputs.conf"])
    as [H _].
  - vm_compute. reflexivity.
  - left. vm_compute. reflexivity.
  - rewrite H. split; reflexivity.
Defined.

(** Both directory flags, the current one first on the command line: the
    legacy directory is merged first all the same. *)
Lemma merge_order_witness :
  let args := [SetString flag_config "outputs.conf";
               SetString flag_config_directory "conf.d";
               SetString flag_configdirectory "telegraf.d"] in
  result (bootstrap Sample.env args Sample.w0) = inl 1 /\
  trace (bootstrap Sample.env args Sample.w0) =
    [EvParse; EvNewConfig; EvLoadConfig 1 "outputs.conf";
     EvLoadDirectory 1 "telegraf.d"; EvLoadDirectory 1 "conf.d"].
Proof.
  cbv zeta.
  destruct (@merge_order unit string Sample.env 0
              [SetString flag_config "outputs.conf";
               SetString flag_config_directory "conf.d";
               SetString flag_configdirectory "telegraf.d"] Sample.w0 1
              (world (loaded Sample.env
                        [SetString flag_config "outputs.conf";
                         SetString flag_config_directory "conf.d";
                         SetString flag_configdirectory "telegraf.d"] Sample.w0))
              [EvParse; EvNewConfig; EvLoadConfig 1 "outputs.conf"])
    as [_ [H _]].
  - vm_compute. reflexivity.
  - vm_compute. discriminate.
  - vm_compute. discriminate.
  - observe H.
Defined.

(** A name that neither lookup knows. *)
Lemma usage_fallback_witness :
  let r := start Sample.env 2 [SetString flag_usage "nosuch"] Sample.w0 in
  result r = inr (Fatal "Input nosuch not found and Output nosuch not found") /\
  trace r = [EvParse; EvPrintInputConfig "nosuch"; EvPrintOutputConfig "nosuch"].
Proof.
  cbv zeta.
  assert (H := @usage_fallback unit string Sample.env 0
                 [SetString flag_usage "nosuch"] Sample.w0).
  assert (Hu : fUsage (parse [SetString flag_usage "nosuch"]) <> "")
    by (vm_compute; discriminate).
  specialize (H eq_refl eq_refl Hu).
  observe H.
Defined.

(** Run mode with a pidfile path: connected, logged, then the pidfile. *)
Lemma run_mode_pidfile_witness :
  let args := [SetString flag_config "telegraf.conf";
               SetString flag_pidfile "telegraf.pid"] in
  let r := start Sample.env 2 args Sample.w0 in
  result r = inl tt /\
  trace r =
    [EvParse; EvNewConfig; EvLoadConfig 1 "telegraf.conf"; EvNewAgent 1;
     EvConnect;
     EvLog ("Starting Telegraf (version 0.13.0)" ++ nl)%string;
     EvLog "Loaded outputs: influxdb";
     EvLog "Loaded inputs: cpu mem";
     EvLog "Tags enabled: ";
     EvCreate "telegraf.pid";
     EvWrite "telegraf.pid" ("4242" ++ nl)%string;
     EvClose "telegraf.pid"].
Proof.
  cbv zeta.
  assert (Hp : fPidfile (parse [SetString flag_config "telegraf.conf";
                                SetString flag_pidfile "telegraf.pid"]) <> "")
    by (vm_compute; discriminate).
  destruct (@run_mode_pidfile unit string Sample.env 0
              [SetString flag_config "telegraf.conf";
               SetString flag_pidfile "telegraf.pid"] Sample.w0 1
              (agent.mkAgent 1 "")
              (world (prepare Sample.env
                        [SetString flag_config "telegraf.conf";
                         SetString flag_pidfile "telegraf.pid"] Sample.w0))
              [EvParse; EvNewConfig; EvLoadConfig 1 "telegraf.conf"; EvNewAgent 1])
    as [_ [_ [_ H]]].
  - vm_compute. reflexivity.
  - reflexivity.
  - exact Hp.
  - observe H.
Defined.

(** [-service-stop -service-remove] on a service that may not be touched:
    the removal is tried, fails and is fatal; nothing is stopped or started. *)
Lemma administrative_terminal_witness :
  let args := [SetBool flag_service_stop true;
               SetBool flag_service_remove true;
               SetString flag_service_name "denied";
               SetString flag_config "telegraf.conf"] in
  main Sample.env 0 args Sample.w0 =
    mkRun (inr (Fatal ("removeService: Access is denied." ++ nl)%string)) Sample.w0
      [EvParse; EvRemoveService "denied"].
Proof.
  cbv zeta.
  rewrite (@administrative_terminal unit string Sample.env 0
             [SetBool flag_service_stop true;
              SetBool flag_service_remove true;
              SetString flag_service_name "denied";
              SetString flag_config "telegraf.conf"] Sample.w0 eq_refl).
  reflexivity.
Defined.

(** ** More on the flags and the filters *)

Lemma boolValue_setArg b a f :
  boolValue b (setArg f a) =
    match a with
    | SetBool b' v => if flagId_eq_dec (BoolFlag b') (BoolFlag b) then v else boolValue b f
    | SetString _ _ => boolValue b f
    end.
Proof. destruct f, a as [[] v | [] v], b; reflexivity. Qed.

Lemma stringValue_setArg s a f :
  stringValue s (setArg f a) =
    match a with
    | SetString s' v =>
        if flagId_eq_dec (StringFlag s') (StringFlag s) then v else stringValue s f
    | SetBool _ _ => stringValue s f
    end.
Proof. destruct f, a as [[] v | [] v], s; reflexivity. Qed.

Lemma boolValue_fold b args :
  forall f, boolValue b (fold_left setArg args f) =
            match lastBool b args with
            | Some v => v
            | None => boolValue b f
            end.
Proof.
  induction args as [| a rest IH]; intros f; cbn [fold_left lastBool]; [reflexivity |].
  rewrite IH. destruct (lastBool b rest); [reflexivity |].
  rewrite boolValue_setArg. destruct a as [b' v | s' v]; [| reflexivity].
  destruct (flagId_eq_dec (BoolFlag b') (BoolFlag b)); reflexivity.
Qed.

Lemma stringValue_fold s args :
  forall f, stringValue s (fold_left setArg args f) =
            match lastString s args with
            | Some v => v
            | None => stringValue s f
            end.
Proof.
  induction args as [| a rest IH]; intros f; cbn [fold_left lastString]; [reflexivity |].
  rewrite IH. destruct (lastString s rest); [reflexivity |].
  rewrite stringValue_setArg. destruct a as [b' v | s' v]; [reflexivity |].
  destruct (flagId_eq_dec (StringFlag s') (StringFlag s)); reflexivity.
Qed.

(** X14: after [flag.Parse] every flag variable holds the last value the
    command line gives to its flag, and the default of its declaration
    (lines 20-51) when the command line does not name the flag; a setting of
    one flag never changes the variable of another. *)
Theorem parse_lookup args :
  (forall b, boolValue b (parse args) =
             match lastBool b args with
             | Some v => v
             | None => boolValue b defaults
             end) /\
  (forall s, stringValue s (parse args) =
             match lastString s args with
             | Some v => v
             | None => stringValue s defaults
             end).
Proof.
  split; intros x; unfold parse; [apply boolValue_fold | apply stringValue_fold].
Qed.

Lemma concat_cons sep x y l :
  String.concat sep (x :: y :: l) = (x ++ sep ++ String.concat sep (y :: l))%string.
Proof. reflexivity. Qed.

(** Joining what was split gives the string back. *)
Lemma Join_Split s sep :
  strings.Join (strings.Split s sep) (String sep "") = s.
Proof.
  unfold strings.Join. induction s as [| c r IH]; [reflexivity |].
  cbn [strings.Split]. destruct (Ascii.eqb_spec c sep) as [-> | Hc].
  - destruct (strings.Split r sep) as [| h t] eqn:Hs.
    + exfalso. exact (Split_nonempty _ _ Hs).
    + rewrite concat_cons, IH. reflexivity.
  - destruct (strings.Split r sep) as [| h t] eqn:Hs.
    + exfalso. exact (Split_nonempty _ _ Hs).
    + destruct t as [| y l].
      * simpl in *. rewrite IH. reflexivity.
      * rewrite concat_cons. rewrite concat_cons in IH.
        simpl. rewrite <- IH. reflexivity.
Qed.

Lemma Split_length s sep :
  length (strings.Split s sep) = S (occurrences sep s).
Proof.
  induction s as [| c r IH]; [reflexivity |].
  cbn [strings.Split occurrences]. destruct (Ascii.eqb c sep).
  - simpl. rewrite IH. reflexivity.
  - destruct (strings.Split r sep) as [| h t] eqn:Hs.
    + exfalso. exact (Split_nonempty _ _ Hs).
    + simpl in *. exact IH.
Qed.

Lemma Split_free s sep :
  Forall (fun name => occurrences sep name = 0) (strings.Split s sep).
Proof.
  induction s as [| c r IH]; [repeat constructor |].
  cbn [strings.Split]. destruct (Ascii.eqb c sep) eqn:Hc.
  - constructor; [reflexivity | exact IH].
  - destruct (strings.Split r sep) as [| h t] eqn:Hs.
    + exfalso. exact (Split_nonempty _ _ Hs).
    + inversion IH as [| ? ? Hh Ht]; subst. constructor; [| exact Ht].
      cbn [occurrences]. rewrite Hc, Hh. reflexivity.
Qed.

Lemma occurrences_app c s t :
  occurrences c (s ++ t) = occurrences c s + occurrences c t.
Proof.
  induction s as [| c' r IH]; [reflexivity |].
  cbn [append occurrences]. rewrite IH. apply Nat.add_assoc.
Qed.

(** X13: the list made of a filter flag (lines 176-177) loses nothing and
    adds nothing: joined with colons it is the trimmed flag between two
    colons again; it has three entries more than the trimmed flag has colons,
    so at least three; and no entry contains a colon. *)
Theorem splitFilter_structure s :
  strings.Join (splitFilter s) ":" = (":" ++ strings.TrimSpace s ++ ":")%string /\
  length (splitFilter s) = 3 + occurrences colon (strings.TrimSpace s) /\
  Forall (fun name => occurrences colon name = 0) (splitFilter s).
Proof.
  unfold splitFilter. repeat split.
  - apply (Join_Split _ colon).
  - rewrite Split_length.
    change (":" ++ strings.TrimSpace s ++ ":")%string
      with (String colon (strings.TrimSpace s ++ String colon "")).
    cbn [occurrences]. rewrite Ascii.eqb_refl, occurrences_app.
    cbn [occurrences]. rewrite Ascii.eqb_refl. lia.
  - apply Split_free.
Qed.

(** X12: the resolved filter list is nil, which is how [config] is told not
    to filter, exactly when the legacy flag and the current flag are both the
    empty string; any other value of either flag, white space included, gives
    a list that is not nil. *)
Theorem resolveFilters_nil legacy current :
  resolveFilters legacy current = [] <-> legacy = "" /\ current = "".
Proof.
  unfold resolveFilters, nonEmpty. split.
  - destruct (String.eqb_spec current "") as [-> | Hc]; cbn [negb].
    + destruct (String.eqb_spec legacy "") as [-> | Hl]; cbn [negb].
      * intros _. split; reflexivity.
      * rewrite splitFilter_flanked. discriminate.
    + rewrite splitFilter_flanked. discriminate.
  - intros [-> ->]. reflexivity.
Qed.

(** ** More on [start] and [main] *)

Section Outcomes.

Variables W O : Type.

Lemma stopsOnly_ret A P (a : A) : stopsOnly P (ret (W:=W) (O:=O) a).
Proof. intros w h H. discriminate. Qed.

Lemma stopsOnly_get P : stopsOnly P (get (W:=W) (O:=O)).
Proof. intros w h H. discriminate. Qed.

Lemma stopsOnly_modify P f : stopsOnly P (modify (W:=W) (O:=O) f).
Proof. intros w h H. discriminate. Qed.

Lemma stopsOnly_emit P e : stopsOnly P (emit (W:=W) (O:=O) e).
Proof. intros w h H. discriminate. Qed.

Lemma stopsOnly_call A P e (f : World W O -> A * World W O) : stopsOnly P (call e f).
Proof. intros w h. unfold call. destruct (f w). discriminate. Qed.

Lemma stopsOnly_stop A (P : halt -> Prop) h :
  P h -> stopsOnly P (stop_with (W:=W) (O:=O) (A:=A) h).
Proof. intros Hp w h' H. injection H as <-. exact Hp. Qed.

Lemma stopsOnly_fatalOn (P : halt -> Prop) err :
  (forall msg, P (Fatal msg)) -> stopsOnly P (fatalOn (W:=W) (O:=O) err).
Proof. intros Hp. destruct err; [apply stopsOnly_stop, Hp | apply stopsOnly_ret]. Qed.

Lemma stopsOnly_bind A B P (m : M W O A) (k : A -> M W O B) :
  stopsOnly P m -> (forall a, stopsOnly P (k a)) -> stopsOnly P (bind m k).
Proof.
  intros Hm Hk w h. unfold bind. specialize (Hm w).
  destruct (m w) as [[a | h'] w1 t1]; simpl in *.
  - specialize (Hk a w1 h). destruct (k a w1) as [r w2 t2]. exact Hk.
  - intros H. injection H as <-. apply Hm. reflexivity.
Qed.

Lemma stopsOnly_when P b (m : M W O unit) : stopsOnly P m -> stopsOnly P (when b m).
Proof. intros H. destruct b; [exact H | apply stopsOnly_ret]. Qed.

End Outcomes.

Lemma planned_returned : planned Returned.
Proof. left. reflexivity. Qed.

Lemma planned_fatal msg : planned (Fatal msg).
Proof. right. exists msg. reflexivity. Qed.

#[export] Hint Resolve stopsOnly_ret stopsOnly_get stopsOnly_modify stopsOnly_emit
  stopsOnly_call planned_returned planned_fatal : trace.
#[export] Hint Extern 1 (stopsOnly _ (stop_with _)) => apply stopsOnly_stop : trace.
#[export] Hint Extern 1 (stopsOnly _ (fatalOn _)) => apply stopsOnly_fatalOn : trace.

Ltac stops :=
  lazymatch goal with
  | |- stopsOnly _ (bind _ _) => apply stopsOnly_bind; [stops | intros; stops]
  | |- stopsOnly _ (when _ _) => apply stopsOnly_when; stops
  | |- stopsOnly _ (match ?x with _ => _ end) => destruct x; stops
  | |- stopsOnly _ _ => solve [auto with trace]
  end.

Section Coverage.

Variables W O : Type.
Variable E : Env W O.

Lemma cycle_planned args :
  Nat.eqb (NFlag args) 0 = false -> stopsOnly planned (cycle E args).
Proof.
  intros Hn. unfold cycle, prepare, bootstrap, loaded, preamble.
  rewrite Hn. unfold when. phases. stops.
Qed.

Lemma function_not_returned (m : M W O unit) w : result (function m w) <> inr Returned.
Proof. unfold function. destruct (m w) as [[[] | []] w1 t1]; discriminate. Qed.

(** X1: a command line without any flag makes [main], and [start] when it
    is called by itself, print the usage text and leave with exit status 0:
    nothing is asked of the service manager, no configuration is built. *)
Theorem no_flags_usage fuel args w :
  NFlag args = 0 ->
  main E fuel args w =
    mkRun (inr (Exit 0)) w [EvParse; EvStdout (usage ++ nl)%string] /\
  start E (S fuel) args w =
    mkRun (inr (Exit 0)) w [EvParse; EvStdout (usage ++ nl)%string].
Proof.
  intros Hn. split.
  - unfold main, function. rewrite bind_emit, Hn. reflexivity.
  - unfold start, function, loop. fold (@loop W O E).
    change (send (make 1) true) with (Some (mkChan [true] 1)). cbv iota.
    change (recv (mkChan [true] 1)) with (Some (true, mkChan [] 1)). cbv iota.
    change (send (mkChan [] 1) false) with (Some (mkChan [false] 1)). cbv iota.
    assert (Hc : cycle E args w =
                 mkRun (inr (Exit 0)) w [EvParse; EvStdout (usage ++ nl)%string]).
    { apply cycle_halts_loading. rewrite loaded_run, Hn. reflexivity. }
    unfold bind. rewrite Hc. reflexivity.
Qed.

(** X2: on a command line that [flag.Parse] accepts, [start] ends in one
    of three ways: it returns, it halts on a fatal error, or it leaves the
    process with [os.Exit], and then with status 0.  It returns or halts on a
    fatal error only when a flag was given.  It never blocks on its channel. *)
Theorem start_outcomes n args w :
  match result (start E (S (S n)) args w) with
  | inl _ => NFlag args <> 0
  | inr (Exit code) => code = 0%Z
  | inr (Fatal _) => NFlag args <> 0
  | inr _ => False
  end.
Proof.
  rewrite start_cycle.
  destruct (Nat.eqb (NFlag args) 0) eqn:Hn.
  - assert (Hc : cycle E args w =
                 mkRun (inr (Exit 0)) w [EvParse; EvStdout (usage ++ nl)%string]).
    { apply cycle_halts_loading. rewrite loaded_run, Hn. reflexivity. }
    unfold function. rewrite Hc. reflexivity.
  - apply Nat.eqb_neq in Hn as Hne.
    pose proof (cycle_planned args Hn w) as Hp.
    unfold function. destruct (cycle E args w) as [[[] | h] w1 t1]; simpl in *.
    + exact Hne.
    + destruct (Hp h eq_refl) as [-> | [msg ->]]; exact Hne.
Qed.

(** *** [main] past the service commands *)

Lemma cycle_service args : atMost isService 0 (cycle E args).
Proof. phases. silent. Qed.

Lemma loop_service args fuel : forall reload, atMost isService 0 (loop E fuel args reload).
Proof.
  induction fuel as [| fuel IH]; intros reload; cbn [loop].
  - apply atMost_stop.
  - destruct (recv reload) as [[[] reload1] |]; try apply atMost_stop; try apply atMost_ret.
    destruct (send reload1 false) as [reload2 |]; [| apply atMost_stop].
    apply atMost_bind_second; [apply cycle_service | intros _; apply IH].
Qed.

(** Whatever the loop bound, [start] asks nothing of the service manager. *)
Lemma start_service fuel args : atMost isService 0 (start E fuel args).
Proof.
  unfold start. apply atMost_function.
  destruct (send (make 1) true); [apply loop_service | apply atMost_stop].
Qed.

(** [main] when no service flag is set (lines 150-159). *)
Lemma main_dispatch fuel args w :
  Nat.eqb (NFlag args) 0 = false ->
  fServiceInstall (parse args) = false ->
  fServiceUninstall (parse args) = false ->
  fServiceStart (parse args) = false ->
  fServiceStop (parse args) = false ->
  main E fuel args w =
    if winsvc_InServiceMode E w then
      match start E fuel args w with
      | mkRun r w1 t1 => mkRun r w1 (EvParse :: t1)
      end
    else
      let res := winsvc_RunAsService E (fServiceName (parse args)) w in
      mkRun match fst res with
            | Some x => inr (Fatal ("svc.Run: " ++ x ++ nl)%string)
            | None => inl tt
            end
        (snd res)
        [EvParse; EvLog ("main: runService" ++ nl)%string;
         EvRunAsService (fServiceName (parse args))].
Proof.
  intros Hn Hi Hr Hs Hp. cbv zeta.
  unfold main, function. rewrite Hn, Hi, Hr, Hs, Hp. rewrite bind_emit. cbv beta.
  unfold when at 1. rewrite bind_ret.
  unfold when at 1. rewrite bind_ret.
  unfold when at 1. rewrite bind_ret.
  unfold when at 1. rewrite bind_ret.
  unfold when at 1. rewrite bind_ret.
  unfold bind at 1. unfold get at 1. cbv iota beta.
  destruct (winsvc_InServiceMode E w); cbn [negb when].
  - rewrite bind_ret.
    pose proof (function_not_returned
                  (match send (make 1) true with
                   | Some reload => loop E fuel args reload
                   | None => stop_with Blocked
                   end) w) as Hnr.
    fold (start E fuel args) in Hnr.
    destruct (start E fuel args w) as [[[] | h] w1 t1]; simpl in *; try reflexivity.
    destruct h; try reflexivity. exfalso. apply Hnr. reflexivity.
  - unfold bind, log_Printf, emit, call, return_, log_Fatal, stop_with, ret.
    destruct (winsvc_RunAsService E (fServiceName (parse args)) w) as [[x |] w1];
      reflexivity.
Qed.

(** X3: with a flag given and no service flag set, [main] looks at the
    service mode.  Outside it, it logs, hands [start] and [stop] to the
    service manager with one [RunAsService] call and returns, or halts on the
    error of that call; it does not run the cycle itself.  Inside it, it
    runs [start], and what [start] does and how it ends is what [main] does
    and how it ends. *)
Theorem main_service_dispatch fuel args w :
  NFlag args <> 0 ->
  fServiceInstall (parse args) || fServiceUninstall (parse args)
    || fServiceStart (parse args) || fServiceStop (parse args) = false ->
  main E fuel args w =
    if winsvc_InServiceMode E w then
      match start E fuel args w with
      | mkRun r w1 t1 => mkRun r w1 (EvParse :: t1)
      end
    else
      let res := winsvc_RunAsService E (fServiceName (parse args)) w in
      mkRun match fst res with
            | Some x => inr (Fatal ("svc.Run: " ++ x ++ nl)%string)
            | None => inl tt
            end
        (snd res)
        [EvParse; EvLog ("main: runService" ++ nl)%string;
         EvRunAsService (fServiceName (parse args))].
Proof.
  intros Hn Hflags.
  apply orb_false_iff in Hflags as [Hflags Hp].
  apply orb_false_iff in Hflags as [Hflags Hs].
  apply orb_false_iff in Hflags as [Hi Hr].
  apply main_dispatch; try assumption.
  apply Nat.eqb_neq. exact Hn.
Qed.

(** X4: one run of [main] asks at most one thing of the service manager:
    one of install, remove, start, stop and run-as-service, or nothing. *)
Theorem main_one_service_command fuel args w :
  count isService (trace (main E fuel args w)) <= 1.
Proof.
  destruct (Nat.eqb (NFlag args) 0) eqn:Hn.
  { unfold main, function. rewrite bind_emit, Hn. simpl. unfold count. simpl. lia. }
  destruct (fServiceInstall (parse args)) eqn:Hi.
  { unfold main, function. rewrite Hn, Hi, bind_emit. cbv beta.
    unfold when at 1. rewrite bind_ret. unfold when at 1. unfold bind at 1.
    rewrite serviceCommand_run.
    destruct (fst (winsvc_InstallService E (appPath E) (fServiceName (parse args))
                     (fServiceDesc (parse args)) w)); unfold count; simpl; lia. }
  destruct (fServiceUninstall (parse args)) eqn:Hr.
  { unfold main, function. rewrite Hn, Hi, Hr, bind_emit. cbv beta.
    unfold when at 1. rewrite bind_ret. unfold when at 1. rewrite bind_ret.
    unfold when at 1. unfold bind at 1. rewrite serviceCommand_run.
    destruct (fst (winsvc_RemoveService E (fServiceName (parse args)) w));
      unfold count; simpl; lia. }
  destruct (fServiceStart (parse args)) eqn:Hs.
  { unfold main, function. rewrite Hn, Hi, Hr, Hs, bind_emit. cbv beta.
    unfold when at 1. rewrite bind_ret. unfold when at 1. rewrite bind_ret.
    unfold when at 1. rewrite bind_ret.
    unfold when at 1. unfold bind at 1. rewrite serviceCommand_run.
    destruct (fst (winsvc_StartService E (fServiceName (parse args)) w));
      unfold count; simpl; lia. }
  destruct (fServiceStop (parse args)) eqn:Hp.
  { unfold main, function. rewrite Hn, Hi, Hr, Hs, Hp, bind_emit. cbv beta.
    unfold when at 1. rewrite bind_ret. unfold when at 1. rewrite bind_ret.
    unfold when at 1. rewrite bind_ret. unfold when at 1. rewrite bind_ret.
    unfold when at 1. unfold bind at 1. rewrite serviceCommand_run.
    destruct (fst (winsvc_StopService E (fServiceName (parse args)) w));
      unfold count; simpl; lia. }
  rewrite main_dispatch by assumption.
  destruct (winsvc_InServiceMode E w).
  - pose proof (start_service fuel args w) as H.
    destruct (start E fuel args w) as [r w1 t1]. unfold count in *. simpl in *. lia.
  - cbv zeta. unfold count. simpl. lia.
Qed.

(** *** Loading *)

Lemma loadConfig_run f w :
  nonEmpty (fConfig f) = true ->
  let c := fst (config_NewConfig E w) in
  let w1 := snd (config_NewConfig E w) in
  let w2 := store c (set_OutputFilters (outputFilters f) (heap w1 c)) w1 in
  let w3 := store c (set_InputFilters (inputFilters f) (heap w2 c)) w2 in
  let r := config_LoadConfig E c (fConfig f) w3 in
  loadConfig E f w =
    mkRun match fst r with
          | Some e => inr (Fatal e)
          | None => inl c
          end
      (snd r) [EvNewConfig; EvLoadConfig c (fConfig f)].
Proof.
  intros Hc. cbv zeta. unfold loadConfig. rewrite Hc.
  unfold bind, call, assign, modify, fatalOn, log_Fatal, stop_with, ret.
  destruct (config_NewConfig E w) as [c w1]. cbn [fst snd]. cbv beta iota.
  destruct (config_LoadConfig E c (fConfig f)
              (store c (set_InputFilters (inputFilters f)
                          (heap (store c (set_OutputFilters (outputFilters f) (heap w1 c)) w1) c))
                 (store c (set_OutputFilters (outputFilters f) (heap w1 c)) w1)))
    as [[e |] w4]; reflexivity.
Qed.

(** X5: when the cycle gets to the primary file, the fresh configuration
    already carries the resolved output and input filters, and is otherwise
    as [NewConfig] made it, at the moment [LoadConfig] is called; no other
    configuration has been touched.  An error of [LoadConfig] is fatal at
    once: no directory is merged, whatever the directory flags say. *)
Theorem primary_load n args w :
  fVersion (parse args) = false ->
  fSampleConfig (parse args) = false ->
  fUsage (parse args) = "" ->
  fConfig (parse args) <> "" ->
  let f := parse args in
  let c := fst (config_NewConfig E w) in
  let w1 := snd (config_NewConfig E w) in
  exists w3,
    config.OutputFilters (heap w3 c) = outputFilters f /\
    config.InputFilters (heap w3 c) = inputFilters f /\
    config.Outputs (heap w3 c) = config.Outputs (heap w1 c) /\
    config.Inputs (heap w3 c) = config.Inputs (heap w1 c) /\
    config.Agent (heap w3 c) = config.Agent (heap w1 c) /\
    config.configOther (heap w3 c) = config.configOther (heap w1 c) /\
    (forall l, Nat.eqb l c = false -> heap w3 l = heap w1 l) /\
    ext w3 = ext w1 /\
    let r := config_LoadConfig E c (fConfig f) w3 in
    match fst r with
    | Some e =>
        start E (S (S n)) args w =
          mkRun (inr (Fatal e)) (snd r) [EvParse; EvNewConfig; EvLoadConfig c (fConfig f)]
    | None =>
        loaded E args w =
          mkRun (inl c) (snd r) [EvParse; EvNewConfig; EvLoadConfig c (fConfig f)]
    end.
Proof.
  intros Hv Hs Hu Hc. cbv zeta.
  assert (Hn : Nat.eqb (NFlag args) 0 = false).
  { apply NFlag_nonzero. intros Hd. apply Hc. rewrite Hd. reflexivity. }
  pose proof (loaded_run E args w) as Hl.
  rewrite Hn, informational_run, Hv, Hs, Hu in Hl. cbn [nonEmpty String.eqb negb] in Hl.
  rewrite (loadConfig_run _ _ (nonEmpty_true Hc)) in Hl. cbv zeta in Hl.
  set (c := fst (config_NewConfig E w)) in *.
  set (w1 := snd (config_NewConfig E w)) in *.
  set (w2 := store c (set_OutputFilters (outputFilters (parse args)) (heap w1 c)) w1) in *.
  set (w3 := store c (set_InputFilters (inputFilters (parse args)) (heap w2 c)) w2) in *.
  exists w3.
  assert (Hcc : heap w3 c = set_InputFilters (inputFilters (parse args))
                              (set_OutputFilters (outputFilters (parse args)) (heap w1 c))).
  { unfold w3, w2, store. cbn [heap]. rewrite !Nat.eqb_refl. reflexivity. }
  rewrite Hcc.
  repeat split.
  - intros l Hlc. unfold w3, w2, store. cbn [heap]. rewrite !Hlc. reflexivity.
  - destruct (fst (config_LoadConfig E c (fConfig (parse args)) w3)).
    + rewrite start_cycle. apply function_halt; [| discriminate].
      apply cycle_halts_loading. exact Hl.
    + exact Hl.
Qed.

(** *** Building the agent *)

Lemma override_settings f (ag : agent.Agent O) (w : World W O) :
  let c := agent.Config ag in
  let r := override f ag w in
  result r = inl tt /\
  trace r = [] /\
  config.Debug (config.Agent (heap (world r) c)) =
    fDebug f || config.Debug (config.Agent (heap w c)) /\
  config.Quiet (config.Agent (heap (world r) c)) =
    fQuiet f || config.Quiet (config.Agent (heap w c)).
Proof.
  cbv zeta. unfold override, when, bind, assign, modify, ret, store.
  destruct (fDebug f), (fQuiet f); cbn; rewrite ?Nat.eqb_refl; cbn;
    repeat split; rewrite ?orb_true_r; reflexivity.
Qed.

(** The cycle from the merged configuration to the agent (lines 246-264). *)
Lemma prepare_run args w :
  prepare E args w =
    match bootstrap E args w with
    | mkRun (inl c) w0 t0 =>
        match config.Outputs (heap w0 c), config.Inputs (heap w0 c) with
        | [], _ => mkRun (inr (Fatal noOutputs)) w0 t0
        | _ :: _, [] => mkRun (inr (Fatal noInputs)) w0 t0
        | _ :: _, _ :: _ =>
            match agent_NewAgent E c w0 with
            | (inl e, w1) => mkRun (inr (Fatal e)) w1 (t0 ++ [EvNewAgent c])
            | (inr ag, w1) =>
                mkRun (inl (c, ag)) (world (override (parse args) ag w1))
                  (t0 ++ [EvNewAgent c])
            end
        end
    | mkRun (inr h) w0 t0 => mkRun (inr h) w0 t0
    end.
Proof.
  unfold prepare. unfold bind at 1.
  destruct (bootstrap E args w) as [[c | h] w0 t0]; [| reflexivity].
  unfold bind at 1. rewrite validate_run.
  destruct (config.Outputs (heap w0 c)) as [| o outs];
    [rewrite app_nil_r; reflexivity |].
  destruct (config.Inputs (heap w0 c)) as [| i ins];
    [rewrite app_nil_r; reflexivity |].
  unfold newAgent, bind, call, log_Fatal, stop_with, ret.
  destruct (agent_NewAgent E c w0) as [[e | ag] w1]; cbv beta iota.
  - reflexivity.
  - destruct (override_settings (parse args) ag w1) as [Hr [Ht _]].
    destruct (override (parse args) ag w1) as [r w2 t2]. simpl in *. subst r t2.
    reflexivity.
Qed.

Lemma cycle_halts_preparing args w h w1 t1 :
  prepare E args w = mkRun (inr h) w1 t1 ->
  cycle E args w = mkRun (inr h) w1 t1.
Proof. intros H. unfold cycle. apply bind_halt. exact H. Qed.

(** X6: an error of [NewAgent] on a validated configuration is fatal: the
    cycle stops in the world that the failed call left, neither [-debug] nor
    [-quiet] is applied, nothing is tested or connected, no pidfile is
    written. *)
Theorem agent_construction_failure n args w c w0 t0 e w1 :
  bootstrap E args w = mkRun (inl c) w0 t0 ->
  config.Outputs (heap w0 c) <> [] ->
  config.Inputs (heap w0 c) <> [] ->
  agent_NewAgent E c w0 = (inl e, w1) ->
  start E (S (S n)) args w = mkRun (inr (Fatal e)) w1 (t0 ++ [EvNewAgent c]) /\
  count isEngine t0 = 0 /\
  count isPidfile t0 = 0.
Proof.
  intros Hb Ho Hi Ha. split; [| split].
  - rewrite start_cycle. apply function_halt; [| discriminate].
    apply cycle_halts_preparing. rewrite prepare_run, Hb.
    destruct (config.Outputs (heap w0 c)); [contradiction |].
    destruct (config.Inputs (heap w0 c)); [contradiction |].
    rewrite Ha. reflexivity.
  - pose proof (bootstrap_engine E args w) as H. rewrite Hb in H. simpl in H. lia.
  - assert (Hp : atMost isPidfile 0 (bootstrap E args)) by (phases; silent).
    specialize (Hp w). rewrite Hb in Hp. simpl in Hp. lia.
Qed.

(** X7: whenever a run of [start] builds, tests or connects an agent, the
    configuration it got from the primary file and the directories had at
    least one output and at least one input. *)
Theorem engine_requires_validation n args w :
  0 < count isEngine (trace (start E (S (S n)) args w)) ->
  exists c w0 t0,
    bootstrap E args w = mkRun (inl c) w0 t0 /\
    config.Outputs (heap w0 c) <> [] /\
    config.Inputs (heap w0 c) <> [].
Proof.
  rewrite start_cycle, trace_function. intros Hpos.
  pose proof (bootstrap_engine E args w) as Hb.
  pose proof (prepare_run args w) as Hp.
  destruct (bootstrap E args w) as [[c | h] w0 t0]; simpl in Hb.
  - destruct (config.Outputs (heap w0 c)) as [| o outs] eqn:Ho.
    + rewrite (cycle_halts_preparing _ _ Hp) in Hpos. simpl in Hpos. lia.
    + destruct (config.Inputs (heap w0 c)) as [| i ins] eqn:Hi.
      * rewrite (cycle_halts_preparing _ _ Hp) in Hpos. simpl in Hpos. lia.
      * exists c, w0, t0. rewrite Ho, Hi. repeat split; discriminate.
  - rewrite (cycle_halts_preparing _ _ Hp) in Hpos. simpl in Hpos. lia.
Qed.

(** X8: [-debug] and [-quiet] are in force before the agent is used: in
    the world in which the agent is tested or connected, the agent's
    configuration has [Debug] set when [-debug] was given and [Quiet] set
    when [-quiet] was given. *)
Theorem overrides_before_launch args w c ag w1 t1 :
  prepare E args w = mkRun (inl (c, ag)) w1 t1 ->
  let settings := config.Agent (heap w1 (agent.Config ag)) in
  (fDebug (parse args) = true -> config.Debug settings = true) /\
  (fQuiet (parse args) = true -> config.Quiet settings = true) /\
  cycle E args w =
    match launch E (parse args) c ag w1 with
    | mkRun r w2 t2 => mkRun r w2 (t1 ++ t2)
    end.
Proof.
  intros Hp. cbv zeta. split; [| split]; [| | exact (cycle_launch _ _ _ Hp)].
  - intros Hd. rewrite prepare_run in Hp.
    destruct (bootstrap E args w) as [[c' | h] w0 t0]; [| discriminate].
    destruct (config.Outputs (heap w0 c')); [discriminate |].
    destruct (config.Inputs (heap w0 c')); [discriminate |].
    destruct (agent_NewAgent E c' w0) as [[e | ag'] w2]; [discriminate |].
    injection Hp as _ <- <- _.
    destruct (override_settings (parse args) ag' w2) as [_ [_ [H _]]].
    rewrite H, Hd. reflexivity.
  - intros Hq. rewrite prepare_run in Hp.
    destruct (bootstrap E args w) as [[c' | h] w0 t0]; [| discriminate].
    destruct (config.Outputs (heap w0 c')); [discriminate |].
    destruct (config.Inputs (heap w0 c')); [discriminate |].
    destruct (agent_NewAgent E c' w0) as [[e | ag'] w2]; [discriminate |].
    injection Hp as _ <- <- _.
    destruct (override_settings (parse args) ag' w2) as [_ [_ [_ H]]].
    rewrite H, Hq. reflexivity.
Qed.

(** *** Test mode *)

Lemma bootstrap_test args : atMost isTest 0 (bootstrap E args).
Proof. phases. silent. Qed.

(** C6 (amended): in test mode the cycle never creates, writes or closes a
    pidfile, whatever [-pidfile] says, never connects the outputs, and tests
    the agent at most once.  It tests it exactly once, as the last thing it
    does, exactly when the cycle gets as far as an agent: when no
    informational request ended it and the configuration was loaded and
    merged, has an output and an input, and [NewAgent] built the agent.  An
    error of the test is then fatal, success returns from [start]. *)
Theorem test_mode_no_pidfile n args w :
  fTest (parse args) = true ->
  let r := start E (S (S n)) args w in
  count isPidfile (trace r) = 0 /\
  count isConnect (trace r) = 0 /\
  count isTest (trace r) <= 1 /\
  (forall c w0 t0 ag w1,
      bootstrap E args w = mkRun (inl c) w0 t0 ->
      config.Outputs (heap w0 c) <> [] ->
      config.Inputs (heap w0 c) <> [] ->
      agent_NewAgent E c w0 = (inr ag, w1) ->
      let res := agent_Test E ag (world (override (parse args) ag w1)) in
      count isTest t0 = 0 /\
      r = mkRun match fst res with
                | Some e => inr (Fatal e)
                | None => inl tt
                end (snd res) (t0 ++ [EvNewAgent c; EvTest])) /\
  (count isTest (trace r) = 1 ->
   exists c w0 t0 ag w1,
     bootstrap E args w = mkRun (inl c) w0 t0 /\
     config.Outputs (heap w0 c) <> [] /\
     config.Inputs (heap w0 c) <> [] /\
     agent_NewAgent E c w0 = (inr ag, w1)).
Proof.
  intros Ht. cbv zeta. rewrite start_cycle, trace_function.
  split; [| split; [| split; [| split]]].
  - apply Nat.le_0_r. unfold cycle.
    apply atMost_bind_second;
      [apply prepare_pidfile | apply launch_test_silent; [exact Ht | reflexivity]].
  - apply Nat.le_0_r. unfold cycle.
    apply atMost_bind_second;
      [apply prepare_connect | apply launch_test_silent; [exact Ht | reflexivity]].
  - apply cycle_test.
  - intros c w0 t0 ag w1 Hb Ho Hi Ha. cbv zeta. split.
    + pose proof (bootstrap_test args w) as H. rewrite Hb in H. simpl in H. lia.
    + assert (Hp : prepare E args w =
                   mkRun (inl (c, ag)) (world (override (parse args) ag w1))
                     (t0 ++ [EvNewAgent c])).
      { rewrite prepare_run, Hb.
        destruct (config.Outputs (heap w0 c)); [contradiction |].
        destruct (config.Inputs (heap w0 c)); [contradiction |].
        rewrite Ha. reflexivity. }
      pose proof (cycle_launch _ _ _ Hp) as Hc.
      rewrite launch_test in Hc by exact Ht. cbv zeta in Hc.
      rewrite <- app_assoc in Hc. cbn [app] in Hc.
      destruct (fst (agent_Test E ag (world (override (parse args) ag w1)))).
      * apply function_halt; [exact Hc | discriminate].
      * apply function_returned. exact Hc.
  - intros Hone.
    pose proof (bootstrap_test args w) as Hsilent.
    pose proof (prepare_run args w) as Hp.
    destruct (bootstrap E args w) as [[c | h] w0 t0]; simpl in Hsilent.
    + destruct (config.Outputs (heap w0 c)) as [| o outs] eqn:Ho.
      { rewrite (cycle_halts_preparing _ _ Hp) in Hone. simpl in Hone. lia. }
      destruct (config.Inputs (heap w0 c)) as [| i ins] eqn:Hi.
      { rewrite (cycle_halts_preparing _ _ Hp) in Hone. simpl in Hone. lia. }
      destruct (agent_NewAgent E c w0) as [[e | ag] w1] eqn:Ha.
      { rewrite (cycle_halts_preparing _ _ Hp) in Hone. simpl in Hone.
        rewrite count_app in Hone. unfold count at 2 in Hone. simpl in Hone. lia. }
      exists c, w0, t0, ag, w1. rewrite Ho, Hi.
      repeat split; try discriminate. exact Ha.
    + rewrite (cycle_halts_preparing _ _ Hp) in Hone. simpl in Hone. lia.
Qed.

(** *** Running *)

Lemma banner_pidfile c (w : World W O) : count isPidfile (banner E c w) = 0.
Proof. reflexivity. Qed.

(** X9: in run mode without [-pidfile], once the agent is built the outputs
    are connected; an error of [Connect] is fatal and nothing is logged; on
    success the four lines are logged and [start] returns, in the world that
    [Connect] left. *)
Theorem run_mode_without_pidfile n args w c ag w1 t1 :
  prepare E args w = mkRun (inl (c, ag)) w1 t1 ->
  fTest (parse args) = false ->
  fPidfile (parse args) = "" ->
  let r1 := agent_Connect E ag w1 in
  start E (S (S n)) args w =
    match fst r1 with
    | Some e => mkRun (inr (Fatal e)) (snd r1) (t1 ++ [EvConnect])
    | None => mkRun (inl tt) (snd r1) (t1 ++ EvConnect :: banner E c (snd r1))
    end.
Proof.
  intros Hp Ht Hpid. cbv zeta. rewrite start_cycle.
  pose proof (cycle_launch _ _ _ Hp) as Hc.
  rewrite launch_run in Hc by exact Ht. cbv zeta in Hc.
  rewrite Hpid in Hc. cbn [nonEmpty String.eqb negb] in Hc.
  destruct (fst (agent_Connect E ag w1)).
  - apply function_halt; [exact Hc | discriminate].
  - apply function_value. exact Hc.
Qed.

(** X10: a run of [start] creates, writes or closes a pidfile only in run
    mode, only when [-pidfile] names a path, and only after an agent was
    built from the configuration and its outputs were connected without
    error. *)
Theorem pidfile_requires_connect n args w :
  0 < count isPidfile (trace (start E (S (S n)) args w)) ->
  fTest (parse args) = false /\
  fPidfile (parse args) <> "" /\
  exists c ag w1 t1,
    prepare E args w = mkRun (inl (c, ag)) w1 t1 /\
    count isPidfile t1 = 0 /\
    fst (agent_Connect E ag w1) = None.
Proof.
  rewrite start_cycle, trace_function. intros Hpos.
  pose proof (prepare_pidfile E args w) as Hsilent.
  destruct (prepare E args w) as [[[c ag] | h] w1 t1] eqn:Hp; simpl in Hsilent.
  - rewrite (cycle_launch _ _ _ Hp) in Hpos.
    destruct (fTest (parse args)) eqn:Ht.
    + rewrite launch_test in Hpos by exact Ht. cbv zeta in Hpos. simpl in Hpos.
      rewrite count_app in Hpos. unfold count at 2 in Hpos. simpl in Hpos. lia.
    + rewrite launch_run in Hpos by exact Ht. cbv zeta in Hpos.
      destruct (fst (agent_Connect E ag w1)) as [e |] eqn:Hconn.
      * simpl in Hpos. rewrite count_app in Hpos.
        unfold count at 2 in Hpos. simpl in Hpos. lia.
      * destruct (nonEmpty (fPidfile (parse args))) eqn:Hpid.
        -- split; [reflexivity |]. split.
           ++ intros Heq. rewrite Heq in Hpid. discriminate.
           ++ exists c, ag, w1, t1. repeat split; [lia | exact Hconn].
        -- simpl in Hpos. rewrite count_app in Hpos.
           change (EvConnect :: banner E c (snd (agent_Connect E ag w1)))
             with ([EvConnect] ++ banner E c (snd (agent_Connect E ag w1))) in Hpos.
           rewrite count_app, banner_pidfile in Hpos.
           unfold count at 2 in Hpos. simpl in Hpos. lia.
  - rewrite (cycle_halts_preparing _ _ Hp) in Hpos. simpl in Hpos. lia.
Qed.

(** *** Merging *)

Lemma mergeDirectories_count f c :
  atMost isLoadDirectory
    ((if nonEmpty (fConfigDirectoryLegacy f) then 1 else 0)
     + (if nonEmpty (fConfigDirectory f) then 1 else 0))
    (mergeDirectories E f c).
Proof.
  intros w. unfold mergeDirectories, when, bind, call, fatalOn, log_Fatal, stop_with, ret.
  destruct (nonEmpty (fConfigDirectoryLegacy f)), (nonEmpty (fConfigDirectory f));
    cbv beta iota;
    repeat (match goal with
            | |- context [config_LoadDirectory E ?c ?p ?w] =>
                destruct (config_LoadDirectory E c p w) as [[?e |] ?w]
            end; cbv beta iota);
    unfold count; simpl; lia.
Qed.

(** X11: a run of [start] merges at most as many directories as there are
    directory flags set: none when neither [-configdirectory] nor
    [-config-directory] is given, at most one when one of them is, at most
    two when both are. *)
Theorem merge_count n args w :
  count isLoadDirectory (trace (start E (S (S n)) args w)) <=
    (if nonEmpty (fConfigDirectoryLegacy (parse args)) then 1 else 0)
    + (if nonEmpty (fConfigDirectory (parse args)) then 1 else 0).
Proof.
  rewrite start_cycle, trace_function. revert w.
  change (atMost isLoadDirectory
            ((if nonEmpty (fConfigDirectoryLegacy (parse args)) then 1 else 0)
             + (if nonEmpty (fConfigDirectory (parse args)) then 1 else 0))
            (cycle E args)).
  unfold cycle.
  apply atMost_bind_first; [| intros p; unfold launch, writePidfile; phases; silent].
  unfold prepare.
  apply atMost_bind_first; [| intros c; phases; silent].
  unfold bootstrap.
  apply atMost_bind_second; [apply loaded_loadDirectory |].
  intros c. apply atMost_bind_first; [apply mergeDirectories_count |].
  intros _. apply atMost_ret.
Qed.

End Coverage.

(** ** The further statements on the concrete environment *)

Lemma no_flags_usage_witness :
  result (main Sample.env 0 [] Sample.w0) = inr (Exit 0) /\
  result (start Sample.env 1 [] Sample.w0) = inr (Exit 0).
Proof.
  destruct (@no_flags_usage unit string Sample.env 0 [] Sample.w0 eq_refl) as [H1 H2].
  rewrite H1, H2. split; reflexivity.
Defined.

(** In service mode [main] is [flag.Parse] and then [start]. *)
Lemma main_service_dispatch_witness :
  let args := [SetString flag_config "telegraf.conf"; SetBool flag_test true] in
  trace (main Sample.env 2 args Sample.w0) =
    EvParse :: trace (start Sample.env 2 args Sample.w0).
Proof.
  cbv zeta.
  assert (Hn : NFlag [SetString flag_config "telegraf.conf"; SetBool flag_test true] <> 0)
    by (vm_compute; discriminate).
  rewrite (@main_service_dispatch unit string Sample.env 2
             [SetString flag_config "telegraf.conf"; SetBool flag_test true]
             Sample.w0 Hn eq_refl).
  vm_compute. reflexivity.
Defined.

(** A primary file that does not exist, with a directory flag set. *)
Lemma primary_load_witness :
  let args := [SetString flag_config "missing.conf";
               SetString flag_config_directory "conf.d"] in
  let r := start Sample.env 2 args Sample.w0 in
  result r = inr (Fatal "open missing.conf: file not found") /\
  trace r = [EvParse; EvNewConfig; EvLoadConfig 1 "missing.conf"].
Proof.
  cbv zeta.
  assert (Hc : fConfig (parse [SetString flag_config "missing.conf";
                               SetString flag_config_directory "conf.d"]) <> "")
    by (vm_compute; discriminate).
  destruct (@primary_load unit string Sample.env 0
              [SetString flag_config "missing.conf";
               SetString flag_config_directory "conf.d"]
              Sample.w0 eq_refl eq_refl eq_refl Hc)
    as [w3 [_ [_ [_ [_ [_ [_ [_ [_ H]]]]]]]]].
  observe H.
Defined.

Lemma agent_construction_failure_witness :
  let args := [SetString flag_config "telegraf.conf"; SetBool flag_debug true] in
  let r := start noAgentEnv 2 args Sample.w0 in
  result r = inr (Fatal "hostname: not available") /\
  trace r = [EvParse; EvNewConfig; EvLoadConfig 1 "telegraf.conf"; EvNewAgent 1].
Proof.
  cbv zeta.
  destruct (@agent_construction_failure unit string noAgentEnv 0
              [SetString flag_config "telegraf.conf"; SetBool flag_debug true]
              Sample.w0 1
              (world (bootstrap noAgentEnv
                        [SetString flag_config "telegraf.conf"; SetBool flag_debug true]
                        Sample.w0))
              [EvParse; EvNewConfig; EvLoadConfig 1 "telegraf.conf"]
              "hostname: not available"
              (world (bootstrap noAgentEnv
                        [SetString flag_config "telegraf.conf"; SetBool flag_debug true]
                        Sample.w0)))
    as [H _].
  - vm_compute. reflexivity.
  - vm_compute. discriminate.
  - vm_compute. discriminate.
  - reflexivity.
  - observe H.
Defined.

Lemma engine_requires_validation_witness :
  let args := [SetString flag_config "telegraf.conf"; SetBool flag_test true] in
  exists c w0 t0,
    bootstrap Sample.env args Sample.w0 = mkRun (inl c) w0 t0 /\
    config.Outputs (heap w0 c) <> [] /\
    config.Inputs (heap w0 c) <> [].
Proof.
  cbv zeta.
  apply (@engine_requires_validation unit string Sample.env 0).
  vm_compute. lia.
Defined.

Lemma overrides_before_launch_witness :
  let args := [SetString flag_config "telegraf.conf"; SetBool flag_debug true] in
  config.Debug (config.Agent (heap (world (prepare Sample.env args Sample.w0)) 1)) = true.
Proof.
  cbv zeta.
  destruct (@overrides_before_launch unit string Sample.env
              [SetString flag_config "telegraf.conf"; SetBool flag_debug true]
              Sample.w0 1 (agent.mkAgent 1 "")
              (world (prepare Sample.env
                        [SetString flag_config "telegraf.conf"; SetBool flag_debug true]
                        Sample.w0))
              [EvParse; EvNewConfig; EvLoadConfig 1 "telegraf.conf"; EvNewAgent 1])
    as [Hd _].
  - vm_compute. reflexivity.
  - exact (Hd eq_refl).
Defined.

Lemma run_mode_without_pidfile_witness :
  let args := [SetString flag_config "telegraf.conf"] in
  let r := start Sample.env 2 args Sample.w0 in
  result r = inl tt /\
  trace r =
    [EvParse; EvNewConfig; EvLoadConfig 1 "telegraf.conf"; EvNewAgent 1;
     EvConnect;
     EvLog ("Starting Telegraf (version 0.13.0)" ++ nl)%string;
     EvLog "Loaded outputs: influxdb";
     EvLog "Loaded inputs: cpu mem";
     EvLog "Tags enabled: "].
Proof.
  cbv zeta.
  assert (H := @run_mode_without_pidfile unit string Sample.env 0
                 [SetString flag_config "telegraf.conf"] Sample.w0 1
                 (agent.mkAgent 1 "")
                 (world (prepare Sample.env [SetString flag_config "telegraf.conf"]
                           Sample.w0))
                 [EvParse; EvNewConfig; EvLoadConfig 1 "telegraf.conf"; EvNewAgent 1]).
  assert (Hp : prepare Sample.env [SetString flag_config "telegraf.conf"] Sample.w0 =
               mkRun (inl (1, agent.mkAgent 1 ""))
                 (world (prepare Sample.env [SetString flag_config "telegraf.conf"]
                           Sample.w0))
                 [EvParse; EvNewConfig; EvLoadConfig 1 "telegraf.conf"; EvNewAgent 1])
    by (vm_compute; reflexivity).
  specialize (H Hp eq_refl eq_refl).
  observe H.
Defined.

Lemma pidfile_requires_connect_witness :
  let args := [SetString flag_config "telegraf.conf";
               SetString flag_pidfile "telegraf.pid"] in
  fTest (parse args) = false /\ fPidfile (parse args) <> "".
Proof.
  cbv zeta.
  destruct (@pidfile_requires_connect unit string Sample.env 0
              [SetString flag_config "telegraf.conf";
               SetString flag_pidfile "telegraf.pid"] Sample.w0)
    as [Ht [Hp _]].
  - vm_compute. lia.
  - split; assumption.
Defined.

(** ** Trimming *)

Section Dropping.

Variable width : list nat -> nat.
Hypothesis width_nil : width [] = 0.

Lemma dropWhile_suffix fuel :
  forall l, exists pre, l = pre ++ strings.dropWhile width fuel l.
Proof.
  induction fuel as [| fuel IH]; intros l; cbn [strings.dropWhile].
  - exists []. reflexivity.
  - destruct (width l) as [| w] eqn:Hw.
    + exists []. reflexivity.
    + destruct (IH (skipn (S w) l)) as [pre Hpre].
      exists (firstn (S w) l ++ pre).
      rewrite <- app_assoc, <- Hpre, firstn_skipn. reflexivity.
Qed.

Lemma dropWhile_done fuel :
  forall l, length l <= fuel -> width (strings.dropWhile width fuel l) = 0.
Proof.
  induction fuel as [| fuel IH]; intros l Hl; cbn [strings.dropWhile].
  - destruct l; [exact width_nil | simpl in Hl; lia].
  - destruct (width l) as [| w] eqn:Hw; [exact Hw |].
    apply IH. rewrite length_skipn.
    destruct l; [rewrite width_nil in Hw; discriminate |].
    simpl in *. lia.
Qed.

Lemma dropWhile_fixed fuel l : width l = 0 -> strings.dropWhile width fuel l = l.
Proof. destruct fuel; cbn [strings.dropWhile]; [reflexivity |]. intros ->. reflexivity. Qed.

End Dropping.

Lemma spaceRunes_nonempty : Forall (fun p => p <> []) strings.spaceRunes.
Proof. repeat constructor; discriminate. Qed.

Lemma find_width_zero (test : list nat -> bool) :
  match find test strings.spaceRunes with
  | Some p => length p
  | None => 0
  end = 0 <->
  forall p, In p strings.spaceRunes -> test p = false.
Proof.
  split.
  - destruct (find test strings.spaceRunes) as [p |] eqn:Hf.
    + intros Hlen. apply find_some in Hf as [Hin _].
      pose proof spaceRunes_nonempty as Hne.
      rewrite Forall_forall in Hne. specialize (Hne p Hin).
      destruct p; [contradiction | discriminate].
    + intros _. exact (find_none _ _ Hf).
  - intros H. destruct (find test strings.spaceRunes) as [p |] eqn:Hf; [| reflexivity].
    apply find_some in Hf as [Hin Ht]. rewrite (H p Hin) in Ht. discriminate.
Qed.

Lemma isPrefix_app p : forall l post,
  strings.isPrefix p l = true -> strings.isPrefix p (l ++ post) = true.
Proof.
  induction p as [| x p IH]; intros l post H; [reflexivity |].
  destruct l as [| y l]; [discriminate |].
  simpl in *. apply andb_true_iff in H as [Hxy Hp].
  rewrite Hxy, (IH _ _ Hp). reflexivity.
Qed.

(** No white space at the head of a list, none at the head of its prefixes. *)
Lemma spaceWidth_prefix l post :
  strings.spaceWidth (l ++ post) = 0 -> strings.spaceWidth l = 0.
Proof.
  unfold strings.spaceWidth. rewrite !find_width_zero.
  intros H p Hin. specialize (H p Hin).
  destruct (strings.isPrefix p l) eqn:Hp; [| reflexivity].
  rewrite (isPrefix_app _ _ post Hp) in H. discriminate.
Qed.

Lemma of_bytes_app a b :
  strings.of_bytes (a ++ b) = (strings.of_bytes a ++ strings.of_bytes b)%string.
Proof.
  unfold strings.of_bytes. induction a as [| x a IH]; [reflexivity |].
  simpl. rewrite IH. reflexivity.
Qed.

Lemma of_bytes_bytes s : strings.of_bytes (strings.bytes s) = s.
Proof.
  unfold strings.of_bytes, strings.bytes. rewrite map_map.
  rewrite (map_ext _ (fun a => a) ascii_nat_embedding), map_id.
  apply string_of_list_ascii_of_string.
Qed.

Lemma bytes_of_bytes l :
  Forall (fun n => n < 256) l -> strings.bytes (strings.of_bytes l) = l.
Proof.
  intros H. unfold strings.of_bytes, strings.bytes.
  rewrite list_ascii_of_string_of_list_ascii, map_map.
  induction H as [| n l Hn _ IH]; [reflexivity |].
  simpl. rewrite (nat_ascii_embedding _ Hn), IH. reflexivity.
Qed.

Lemma bytes_bounded s : Forall (fun n => n < 256) (strings.bytes s).
Proof.
  unfold strings.bytes. apply Forall_forall. intros n Hin.
  apply in_map_iff in Hin as [a [<- _]]. apply nat_ascii_bounded.
Qed.

(** The bytes that [TrimSpace] keeps, within the bytes it was given. *)
Lemma trim_bytes l :
  let kept := strings.TrimRightSpace (strings.TrimLeftSpace l) in
  (exists pre post, l = pre ++ kept ++ post) /\
  strings.spaceWidth kept = 0 /\
  strings.spaceWidthLast (rev kept) = 0.
Proof.
  cbv zeta. unfold strings.TrimRightSpace, strings.TrimLeftSpace.
  set (l1 := strings.dropWhile strings.spaceWidth (length l) l).
  destruct (dropWhile_suffix strings.spaceWidth (length l) l) as [pre Hpre].
  fold l1 in Hpre.
  destruct (dropWhile_suffix strings.spaceWidthLast (length l1) (rev l1)) as [post Hpost].
  set (r2 := strings.dropWhile strings.spaceWidthLast (length l1) (rev l1)) in *.
  assert (Hl1 : l1 = rev r2 ++ rev post).
  { rewrite <- rev_app_distr, <- Hpost, rev_involutive. reflexivity. }
  split; [| split].
  - exists pre, (rev post). rewrite <- Hl1. exact Hpre.
  - apply (spaceWidth_prefix _ (rev post)). rewrite <- Hl1.
    apply dropWhile_done; [reflexivity | apply Nat.le_refl].
  - rewrite rev_involutive. apply dropWhile_done; [reflexivity |].
    rewrite length_rev. apply Nat.le_refl.
Qed.

(** X15: [strings.TrimSpace] as the flags meet it (lines 176, 180, 186,
    190): the trimmed flag is a contiguous part of the flag; it neither
    begins nor ends with a white-space rune; and trimming it again changes
    nothing, so a flag and its trimmed form resolve to the same list. *)
Theorem TrimSpace_trimmed s :
  let t := strings.TrimSpace s in
  (exists pre post, s = (pre ++ t ++ post)%string) /\
  strings.spaceWidth (strings.bytes t) = 0 /\
  strings.spaceWidthLast (rev (strings.bytes t)) = 0 /\
  strings.TrimSpace t = t /\
  splitFilter t = splitFilter s.
Proof.
  cbv zeta.
  destruct (trim_bytes (strings.bytes s)) as [[pre [post Hs]] [Hhead Hlast]].
  set (kept := strings.TrimRightSpace (strings.TrimLeftSpace (strings.bytes s))) in *.
  assert (Hb : strings.bytes (strings.TrimSpace s) = kept).
  { unfold strings.TrimSpace. fold kept. apply bytes_of_bytes.
    pose proof (bytes_bounded s) as H. rewrite Hs in H.
    apply Forall_app in H as [_ H]. apply Forall_app in H as [H _]. exact H. }
  assert (Hidem : strings.TrimSpace (strings.TrimSpace s) = strings.TrimSpace s).
  { unfold strings.TrimSpace at 1. rewrite Hb.
    unfold strings.TrimLeftSpace, strings.TrimRightSpace.
    rewrite (@dropWhile_fixed strings.spaceWidth (length kept) kept Hhead).
    rewrite (@dropWhile_fixed strings.spaceWidthLast (length kept) (rev kept) Hlast).
    rewrite rev_involutive. reflexivity. }
  split; [| split; [| split; [| split]]].
  - exists (strings.of_bytes pre), (strings.of_bytes post).
    rewrite <- (of_bytes_bytes s) at 1. rewrite Hs, !of_bytes_app. reflexivity.
  - rewrite Hb. exact Hhead.
  - rewrite Hb. exact Hlast.
  - exact Hidem.
  - unfold splitFilter. rewrite Hidem. reflexivity.
Qed.

(** ** Test mode on the concrete environment *)

(** C6 as stated fails when an informational request ends the cycle first:
    with [-test -version] the version is printed and the cycle returns
    without any collection pass. *)
Lemma test_mode_no_pidfile_counterexample :
  let args := [SetBool flag_test true; SetBool flag_version true] in
  let r := start Sample.env 2 args Sample.w0 in
  fTest (parse args) = true /\
  count isTest (trace r) = 0 /\
  r = mkRun (inl tt) Sample.w0
        [EvParse; EvStdout ("Telegraf - Version 0.13.0" ++ nl)%string].
Proof. cbv zeta. repeat split. Qed.

(** Test mode with a pidfile path and a valid configuration: the agent is
    built and tested once, then [start] returns; no pidfile. *)
Lemma test_mode_no_pidfile_witness :
  let args := [SetString flag_config "telegraf.conf";
               SetString flag_pidfile "telegraf.pid";
               SetBool flag_test true] in
  let r := start Sample.env 2 args Sample.w0 in
  result r = inl tt /\
  trace r = [EvParse; EvNewConfig; EvLoadConfig 1 "telegraf.conf";
             EvNewAgent 1; EvTest] /\
  count isTest (trace r) = 1 /\
  count isPidfile (trace r) = 0 /\
  count isConnect (trace r) = 0.
Proof.
  cbv zeta.
  destruct (@test_mode_no_pidfile unit string Sample.env 0
              [SetString flag_config "telegraf.conf";
               SetString flag_pidfile "telegraf.pid";
               SetBool flag_test true] Sample.w0 eq_refl)
    as [Hpid [Hconn [_ [Hrun _]]]].
  destruct (Hrun 1
              (world (bootstrap Sample.env
                        [SetString flag_config "telegraf.conf";
                         SetString flag_pidfile "telegraf.pid";
                         SetBool flag_test true] Sample.w0))
              [EvParse; EvNewConfig; EvLoadConfig 1 "telegraf.conf"]
              (agent.mkAgent 1 "")
              (world (bootstrap Sample.env
                        [SetString flag_config "telegraf.conf";
                         SetString flag_pidfile "telegraf.pid";
                         SetBool flag_test true] Sample.w0)))
    as [_ H].
  - vm_compute. reflexivity.
  - vm_compute. discriminate.
  - vm_compute. discriminate.
  - reflexivity.
  - split; [exact (f_equal (fun r => result r) H) |].
    split; [exact (f_equal (fun r => trace r) H) |].
    split; [exact (f_equal (fun r => count isTest (trace r)) H) |].
    split; assumption.
Defined.
